(** * coa-api: the request pipeline of [main.go]

    A shallow embedding of the HTTP front end of go-accounting/coa-api:
    the authenticator [user], the dispatcher [handler], the error helper
    [check], the six domain operation handlers and the repository pool.

    Go values are modelled as follows.
    - [error] is [option string]: [None] is [nil], [Some m] an error whose
      [Error()] text is [m].
    - [interface{}] results are [option Value]: [None] is the nil interface.
    - A [*repository] is an address into a heap of [repository] records.
    - A Go function with effects is a function in the monad [M], which
      threads the [World] (heap, pool, backend, event trace) and may panic.
    - The [http.ResponseWriter] of a request is passed and returned
      explicitly, as [handler] receives it as an argument. *)

From stdpp Require Import gmap strings list.

Local Open Scope string_scope.
Local Open Scope list_scope.

(** The line feed that [fmt.Fprintln] and [json.Encoder.Encode] append. *)
Definition newline : string := String (Ascii.ascii_of_nat 10) EmptyString.

(** Go's [error] interface. *)
Definition error := option string.

(** ** Package [strings] *)
Module Strings.

(** [strip s p] is [Some rest] when [s = p ++ rest]. *)
Fixpoint strip (s p : string) {struct p} : option string :=
  match p with
  | EmptyString => Some s
  | String c p' =>
      match s with
      | EmptyString => None
      | String d s' => if decide (c = d) then strip s' p' else None
      end
  end.

(** [strings.TrimPrefix]: [s] without the leading [p]; [s] itself when
    [s] does not start with [p]. *)
Definition TrimPrefix (s p : string) : string :=
  match strip s p with Some rest => rest | None => s end.

End Strings.

(** ** Package [net/http] *)
Module http.

(** [http.Header] is [map[string][]string]. *)
Abbreviation Header := (gmap string (list string)).

Definition StatusOK : nat := 200.
Definition StatusInternalServerError : nat := 500.

(** The part of a request that [main.go] reads. *)
Record Request := mkRequest {
  Header_ : Header;
  Body : string
}.

(** A response under construction: the live header map, the status line
    once it has been written together with the headers that went out
    with it, and the bytes of the body written so far. *)
Record ResponseWriter := mkResponseWriter {
  header : Header;
  status : option nat;
  sent : Header;
  body : string
}.

Definition NewResponseWriter : ResponseWriter :=
  mkResponseWriter ∅ None ∅ "".

(** [w.Header().Set(k, v)] *)
Definition Set_ (k v : string) (w : ResponseWriter) : ResponseWriter :=
  mkResponseWriter (<[k := [v]]> (header w)) (status w) (sent w) (body w).

(** [w.WriteHeader(code)]: only the first call has an effect. *)
Definition WriteHeader (code : nat) (w : ResponseWriter) : ResponseWriter :=
  match status w with
  | Some _ => w
  | None => mkResponseWriter (header w) (Some code) (header w) (body w)
  end.

(** [w.Write(p)]: writes the header with status 200 first when none was
    written. *)
Definition Write (p : string) (w : ResponseWriter) : ResponseWriter :=
  let w := WriteHeader StatusOK w in
  mkResponseWriter (header w) (status w) (sent w) (body w +:+ p).

(** [http.Error(w, msg, code)]: the message goes out through
    [fmt.Fprintln], which ends it with a line feed. *)
Definition Error (w : ResponseWriter) (msg : string) (code : nat)
  : ResponseWriter :=
  let w := Set_ "Content-Type" "text/plain; charset=utf-8" w in
  let w := Set_ "X-Content-Type-Options" "nosniff" w in
  let w := WriteHeader code w in
  Write (msg +:+ newline) w.

(** What the client sees once the handler has returned: the server
    writes the header with status 200 when the handler wrote nothing. *)
Definition finish (w : ResponseWriter) : ResponseWriter :=
  WriteHeader StatusOK w.

End http.

(** ** Package [httprouter] *)
Module httprouter.

Record Param := mkParam { Key : string; Value_ : string }.

Definition Params := list Param.

(** [ps.ByName(name)]: the value of the first parameter whose key is
    [name], the empty string when there is none. *)
Fixpoint ByName (ps : Params) (name : string) : string :=
  match ps with
  | [] => ""
  | p :: ps' => if decide (Key p = name) then Value_ p else ByName ps' name
  end.

End httprouter.

(** ** Package [coa] *)
Module coa.

(** Modelled from the spec: the declarations of [coa.ChartOfAccounts]
    and [coa.Account] are not part of the sources.  Each entity is
    identified by a string id and carries an owner identity; the other
    members of its wire shape are kept as uninterpreted fields. *)
Module ChartOfAccounts.
Record t := mk {
  Id : string;
  User : string;
  Fields : list (string * string)
}.
Definition zero : t := mk "" "" [].
Definition with_Id (id : string) (c : t) : t := mk id (User c) (Fields c).
Definition with_User (u : string) (c : t) : t := mk (Id c) u (Fields c).
End ChartOfAccounts.

Module Account.
Record t := mk {
  Id : string;
  User : string;
  Fields : list (string * string)
}.
Definition zero : t := mk "" "" [].
Definition with_Id (id : string) (a : t) : t := mk id (User a) (Fields a).
Definition with_User (u : string) (a : t) : t := mk (Id a) u (Fields a).
End Account.

(** The operations of [coa.CoaRepository] that [main.go] calls, with
    their arguments. *)
Inductive Call :=
| AllChartsOfAccounts
| GetChartOfAccounts (id : string)
| SaveChartOfAccounts (c : ChartOfAccounts.t)
| AllAccounts (coaid : string)
| GetAccount (coaid accountid : string)
| SaveAccount (coaid : string) (a : Account.t).

End coa.

(** ** Outcomes and events *)

(** A Go call either returns or panics. *)
Inductive Outcome (A : Type) :=
| Returned (a : A)
| Panicked (msg : string).
Arguments Returned {A} a.
Arguments Panicked {A} msg.

(** Addresses of heap-allocated [repository] objects. *)
Definition addr := nat.

(** What a request does to the world outside its own response, in the
    order it does it. *)
Inductive Event :=
| EvVerify (token : string)                        (* verifier.Verify(ctx, token) *)
| EvNew (h : addr)                                 (* repositoryPool.New built h *)
| EvGet (h : addr)                                 (* repositoryPool.Get() returned h *)
| EvPut (h : addr)                                 (* repositoryPool.Put(h) *)
| EvDecode                                         (* json.NewDecoder(r.Body).Decode(v) *)
| EvRepo (h : addr) (identity : string) (c : coa.Call). (* a repository method ran on h *)

(** The struct the token's claims are decoded into in [user]. *)
Record claims_t := mkClaims { Email : string; Verified : bool }.

(** A type that [encoding/json] can decode into. *)
Class Unmarshaler (T : Type) := unmarshal : string → T → T * error.

(** ** The collaborators

    Everything [main.go] calls into and does not define: the OpenID
    verifier, the storage plugin, the [coa] repository and
    [encoding/json]. *)
Class Collaborators := {
  IDToken : Type;
  (** the dynamic values a repository method returns *)
  Value : Type;
  KeyValueStore : Type;
  (** the state of the storage backend *)
  Backend : Type;
  (** [verifier.Verify(ctx, token)] *)
  Verify : string → IDToken + string;
  (** [idtoken.Claims(&claims)], started on the zero struct *)
  Claims : IDToken → claims_t * error;
  (** [cfg.Run("NewKeyValueStore", &r.user)] for the repository at the
      given address: an error, or a value that is a [coa.KeyValueStore]
      ([Some]) or is not ([None]) *)
  NewKeyValueStore : addr → option KeyValueStore + string;
  (** a method of the [coa.CoaRepository] built on a store; the store was
      given the address of the handle's [user] field, so it sees the value
      the field has when the method runs *)
  run : KeyValueStore → string → coa.Call → Backend →
        Outcome (option Value * error) * Backend;
  (** [json.Marshal] *)
  Marshal : Value → string + string;
  chart_json :: Unmarshaler coa.ChartOfAccounts.t;
  account_json :: Unmarshaler coa.Account.t
}.

(** ** The world and the monad of effects *)
Section Pipeline.

Context `{Collaborators}.

(** [type repository struct { *coa.CoaRepository; user string }] *)
Record repository := mkRepository {
  CoaRepository : KeyValueStore;
  user_ : string
}.

(** The state shared by all requests.  [idle] is the content of
    [repositoryPool]; [sched] resolves the choices [sync.Pool] is free to
    make: each [Get] consumes one number [k] and takes the idle handle at
    index [k], or builds a new one when there is none at that index. *)
Record World := mkWorld {
  heap : gmap addr repository;
  idle : list addr;
  sched : list nat;
  backend : Backend;
  trace : list Event
}.

Definition M (A : Type) : Type := World → Outcome A * World.

#[export] Instance M_ret : MRet M := λ A a w, (Returned a, w).

#[export] Instance M_bind : MBind M := λ A B k m w,
  match m w with
  | (Returned a, w') => k a w'
  | (Panicked e, w') => (Panicked e, w')
  end.

Definition panic {A} (msg : string) : M A := λ w, (Panicked msg, w).

Definition emit (e : Event) : M unit := λ w,
  (Returned tt, mkWorld (heap w) (idle w) (sched w) (backend w) (trace w ++ [e])).

(** [defer d] before [body]: [d] runs when [body] is left, by return or
    by panic. *)
Definition defer {A} (d : M unit) (body : M A) : M A := λ w,
  let '(o, w1) := body w in
  match d w1 with
  | (Returned _, w2) => (o, w2)
  | (Panicked e, w2) => (Panicked e, w2)
  end.

(** *** [repositoryPool] *)

(** The [New] function of the pool. *)
Definition repositoryPool_New : M addr := λ w,
  let r := fresh (dom (heap w)) in
  match NewKeyValueStore r with
  | inr err => (Panicked err, w)
  | inl None => (Panicked "interface conversion: not a coa.KeyValueStore", w)
  | inl (Some v) =>
      (Returned r,
       mkWorld (<[r := mkRepository v ""]> (heap w)) (idle w) (sched w)
               (backend w) (trace w ++ [EvNew r]))
  end.

(** [repositoryPool.Get()], asserted to be a pointer to a [repository] *)
Definition repositoryPool_Get : M addr := λ w,
  let k := hd 0 (sched w) in
  let w := mkWorld (heap w) (idle w) (tl (sched w)) (backend w) (trace w) in
  match idle w !! k with
  | Some h =>
      (Returned h,
       mkWorld (heap w) (delete k (idle w)) (sched w) (backend w)
               (trace w ++ [EvGet h]))
  | None => (h ← repositoryPool_New; _ ← emit (EvGet h); mret h) w
  end.

(** [repositoryPool.Put(cr)] *)
Definition repositoryPool_Put (cr : addr) : M unit := λ w,
  (Returned tt,
   mkWorld (heap w) (idle w ++ [cr]) (sched w) (backend w)
           (trace w ++ [EvPut cr])).

(** *** Fields and methods of a [*repository] *)

(** reading [cr.user] *)
Definition load_user (cr : addr) : M string := λ w,
  match heap w !! cr with
  | Some r => (Returned (user_ r), w)
  | None => (Panicked "invalid memory address or nil pointer dereference", w)
  end.

(** [cr.user = u] *)
Definition store_user (cr : addr) (u : string) : M unit := λ w,
  match heap w !! cr with
  | Some r =>
      (Returned tt,
       mkWorld (<[cr := mkRepository (CoaRepository r) u]> (heap w)) (idle w)
               (sched w) (backend w) (trace w))
  | None => (Panicked "invalid memory address or nil pointer dereference", w)
  end.

(** A method of the embedded [*coa.CoaRepository], called through [cr]. *)
Definition call (cr : addr) (c : coa.Call) : M (option Value * error) := λ w,
  match heap w !! cr with
  | Some r =>
      let '(o, b) := run (CoaRepository r) (user_ r) c (backend w) in
      (o, mkWorld (heap w) (idle w) (sched w) b
                  (trace w ++ [EvRepo cr (user_ r) c]))
  | None => (Panicked "invalid memory address or nil pointer dereference", w)
  end.

(** *** [encoding/json] on the request and the response *)

(** [type decoder func(interface{}) error]: the argument points to the
    value to fill, which the model returns next to the error. *)
Definition decoder : Type := ∀ T : Type, Unmarshaler T → T → M (T * error).

(** The closure [handler] passes to [f]:
    [func(v interface{}) error { return json.NewDecoder(r.Body).Decode(v) }].
    It decodes the first JSON value of the body; no operation calls it
    twice. *)
Definition Decode (r : http.Request) : decoder := λ T _ v,
  _ ← emit EvDecode; mret (unmarshal (http.Body r) v).

(** [json.NewEncoder(w).Encode(v)]: the encoding is written in one piece,
    followed by a line feed; nothing is written when [v] cannot be
    encoded. *)
Definition Encode (v : Value) (w : http.ResponseWriter)
  : error * http.ResponseWriter :=
  match Marshal v with
  | inl js => (None, http.Write (js +:+ newline) w)
  | inr err => (Some err, w)
  end.

(** *** [main.go] *)

Definition check (err : error) (w : http.ResponseWriter)
  : bool * http.ResponseWriter :=
  match err with
  | Some e => (true, http.Error w e http.StatusInternalServerError)
  | None => (false, w)
  end.

(** The credential [user] hands to the verifier. *)
Definition bearer (r : http.Request) : string :=
  match http.Header_ r !! "Authorization" with
  | Some (t :: _) => Strings.TrimPrefix t "Bearer "
  | _ => ""
  end.

Definition user (r : http.Request) : M (string * error) :=
  let token := bearer r in
  _ ← emit (EvVerify token);
  match Verify token with
  | inr err => mret ("", Some err)
  | inl idtoken =>
      let '(claims, err) := Claims idtoken in
      match err with
      | Some e => mret ("", Some e)
      | None =>
          if negb (Verified claims)
          then mret ("", Some "email not verified")
          else mret (Email claims, None)
      end
  end.

(** The type of the functions [handler] wraps. *)
Definition operation : Type :=
  addr → httprouter.Params → decoder → M (option Value * error).

Definition handler (f : operation)
    (w : http.ResponseWriter) (r : http.Request) (ps : httprouter.Params)
  : M http.ResponseWriter :=
  '(u, err) ← user r;
  let '(failed, w) := check err w in
  if failed : bool then mret w else
  cr ← repositoryPool_Get;
  _ ← store_user cr u;
  defer (repositoryPool_Put cr) (
    '(v, err) ← f cr ps (Decode r);
    let '(failed, w) := check err w in
    if failed : bool then mret w else
    match v with
    | Some v =>
        let w := http.Set_ "Content-Type" "application/json" w in
        let '(err, w) := Encode v w in
        mret (check err w).2
    | None => mret w
    end).

Definition chartsOfAccounts : operation := λ cr _ _,
  call cr coa.AllChartsOfAccounts.

Definition getChartOfAccounts : operation := λ cr ps _,
  call cr (coa.GetChartOfAccounts (httprouter.ByName ps "coa")).

Definition saveChartsOfAccounts : operation := λ cr ps d,
  '(c, err) ← d _ _ coa.ChartOfAccounts.zero;
  match err with
  | Some e => mret (None, Some e)
  | None =>
      let c := if decide (httprouter.ByName ps "coa" ≠ "")
               then coa.ChartOfAccounts.with_Id (httprouter.ByName ps "coa") c
               else c in
      u ← load_user cr;
      let c := coa.ChartOfAccounts.with_User u c in
      call cr (coa.SaveChartOfAccounts c)
  end.

Definition accounts : operation := λ cr ps _,
  call cr (coa.AllAccounts (httprouter.ByName ps "coa")).

Definition getAccount : operation := λ cr ps _,
  call cr (coa.GetAccount (httprouter.ByName ps "coa")
                          (httprouter.ByName ps "account")).

Definition saveAccount : operation := λ cr ps d,
  '(a, err) ← d _ _ coa.Account.zero;
  match err with
  | Some e => mret (None, Some e)
  | None =>
      let a := if decide (httprouter.ByName ps "account" ≠ "")
               then coa.Account.with_Id (httprouter.ByName ps "account") a
               else a in
      u ← load_user cr;
      let a := coa.Account.with_User u a in
      call cr (coa.SaveAccount (httprouter.ByName ps "coa") a)
  end.

(** The routes registered in [main]. *)
Inductive Method := GET | POST | PUT.

Inductive Route :=
| ListCharts | CreateChart | GetChart | PutChart
| ListAccounts | CreateAccount | GetAccount_ | PutAccount.

Definition route_method (rt : Route) : Method :=
  match rt with
  | ListCharts | GetChart | ListAccounts | GetAccount_ => GET
  | CreateChart | CreateAccount => POST
  | PutChart | PutAccount => PUT
  end.


Definition route_operation (rt : Route) : operation :=
  match rt with
  | ListCharts => chartsOfAccounts
  | CreateChart | PutChart => saveChartsOfAccounts
  | GetChart => getChartOfAccounts
  | ListAccounts => accounts
  | CreateAccount | PutAccount => saveAccount
  | GetAccount_ => getAccount
  end.

(** [router.METHOD(path, handler(f))] *)
Definition serve (rt : Route) := handler (route_operation rt).

End Pipeline.

(** ** Observing a run *)

(** The events a run added to the trace. *)
Definition since `{Collaborators} (σ σ' : World) : list Event :=
  drop (length (trace σ)) (trace σ').

(** The world after one more event. *)
Definition record `{Collaborators} (e : Event) (σ : World) : World :=
  mkWorld (heap σ) (idle σ) (sched σ) (backend σ) (trace σ ++ [e]).

(** The handles taken from the pool, in order. *)
Definition acquired (l : list Event) : list addr :=
  omap (λ e, match e with EvGet h => Some h | _ => None end) l.

(** The handles given back to the pool, in order. *)
Definition released (l : list Event) : list addr :=
  omap (λ e, match e with EvPut h => Some h | _ => None end) l.

(** The repository methods that ran: handle, identity seen, call. *)
Definition repo_calls (l : list Event) : list (addr * string * coa.Call) :=
  omap (λ e, match e with EvRepo h u c => Some (h, u, c) | _ => None end) l.

(** The owner of the entity a save call persists. *)
Definition saved_owner (c : coa.Call) : option string :=
  match c with
  | coa.SaveChartOfAccounts c => Some (coa.ChartOfAccounts.User c)
  | coa.SaveAccount _ a => Some (coa.Account.User a)
  | _ => None
  end.


(** The events the operation of a route adds when it runs on the handle
    [h] whose identity is [u]: the body is decoded by the save operations
    only, and the repository is called unless decoding failed. *)
Definition op_trace `{Collaborators} (rt : Route) (r : http.Request)
    (ps : httprouter.Params) (h : addr) (u : string) : list Event :=
  let coaid := httprouter.ByName ps "coa" in
  let accountid := httprouter.ByName ps "account" in
  match rt with
  | ListCharts => [EvRepo h u coa.AllChartsOfAccounts]
  | GetChart => [EvRepo h u (coa.GetChartOfAccounts coaid)]
  | ListAccounts => [EvRepo h u (coa.AllAccounts coaid)]
  | GetAccount_ => [EvRepo h u (coa.GetAccount coaid accountid)]
  | CreateChart | PutChart =>
      match unmarshal (http.Body r) coa.ChartOfAccounts.zero with
      | (_, Some _) => [EvDecode]
      | (c, None) =>
          let c := if decide (coaid ≠ "")
                   then coa.ChartOfAccounts.with_Id coaid c else c in
          [EvDecode;
           EvRepo h u (coa.SaveChartOfAccounts (coa.ChartOfAccounts.with_User u c))]
      end
  | CreateAccount | PutAccount =>
      match unmarshal (http.Body r) coa.Account.zero with
      | (_, Some _) => [EvDecode]
      | (a, None) =>
          let a := if decide (accountid ≠ "")
                   then coa.Account.with_Id accountid a else a in
          [EvDecode;
           EvRepo h u (coa.SaveAccount coaid (coa.Account.with_User u a))]
      end
  end.

(** The events of a request, started in [σ], after its credential was
    verified as [u]: none when building a new handle panicked, the
    acquisition alone when the pool held a handle that is not allocated,
    and otherwise the acquisition, the events of the operation and the
    release. *)
Inductive served `{Collaborators} (σ : World) (rt : Route) (r : http.Request)
    (ps : httprouter.Params) (u : string) : list Event → Prop :=
| served_panic : served σ rt r ps u []
| served_dangling h :
    h ∈ idle σ → heap σ !! h = None → served σ rt r ps u [EvGet h]
| served_run pre h :
    pre = [] ∨ pre = [EvNew h] →
    served σ rt r ps u (pre ++ EvGet h :: op_trace rt r ps h u ++ [EvPut h]).

(** Two requests that differ at most in the owner their bodies name: the
    headers agree, and the bodies decode with the same error or to
    entities with the same id and the same other fields. *)
Definition same_but_owner `{Collaborators} (r1 r2 : http.Request) : Prop :=
  http.Header_ r1 = http.Header_ r2 ∧
  (let c1 := unmarshal (http.Body r1) coa.ChartOfAccounts.zero in
   let c2 := unmarshal (http.Body r2) coa.ChartOfAccounts.zero in
   c1.2 = c2.2 ∧
   coa.ChartOfAccounts.Id c1.1 = coa.ChartOfAccounts.Id c2.1 ∧
   coa.ChartOfAccounts.Fields c1.1 = coa.ChartOfAccounts.Fields c2.1) ∧
  (let a1 := unmarshal (http.Body r1) coa.Account.zero in
   let a2 := unmarshal (http.Body r2) coa.Account.zero in
   a1.2 = a2.2 ∧
   coa.Account.Id a1.1 = coa.Account.Id a2.1 ∧
   coa.Account.Fields a1.1 = coa.Account.Fields a2.1).

(** The response [handler] builds from what the operation returned. *)
Definition respond `{Collaborators} (w : http.ResponseWriter)
    (res : option Value * error) : http.ResponseWriter :=
  match res with
  | (_, Some e) => http.Error w e http.StatusInternalServerError
  | (None, None) => w
  | (Some v, None) =>
      let w := http.Set_ "Content-Type" "application/json" w in
      match Marshal v with
      | inl js => http.Write (js +:+ newline) w
      | inr e => http.Error w e http.StatusInternalServerError
      end
  end.

(** Idle handles are allocated and no handle is idle twice. *)
Definition pool_wf `{Collaborators} (σ : World) : Prop :=
  NoDup (idle σ) ∧ Forall (λ h, is_Some (heap σ !! h)) (idle σ).

#[export] Instance pool_wf_dec `{Collaborators} (σ : World) :
  Decision (pool_wf σ).
Proof. unfold pool_wf. apply _. Defined.

(** The credential of a request does not authenticate: the verifier
    rejects it, the claims of its token do not decode, or its email is
    not verified. *)
Definition rejected `{Collaborators} (r : http.Request) : bool :=
  match Verify (bearer r) with
  | inr _ => true
  | inl t =>
      match Claims t with
      | (_, Some _) => true
      | (claims, None) => negb (Verified claims)
      end
  end.

(** The result of [user], which depends on the request alone. *)
Definition authenticate `{Collaborators} (r : http.Request) : string * error :=
  match Verify (bearer r) with
  | inr err => ("", Some err)
  | inl idtoken =>
      match Claims idtoken with
      | (_, Some e) => ("", Some e)
      | (claims, None) =>
          if Verified claims then (Email claims, None)
          else ("", Some "email not verified")
      end
  end.

(** A failure response carrying the message [msg]. *)
Definition failure (w : http.ResponseWriter) (msg : string) : Prop :=
  http.status w = Some http.StatusInternalServerError ∧
  http.sent w !! "Content-Type" = Some ["text/plain; charset=utf-8"] ∧
  http.body w = msg +:+ newline.

(** [assert_bound cr u] panics unless [cr.user] is [u]. *)
Definition assert_bound `{Collaborators} (cr : addr) (u : string) : M unit :=
  u' ← load_user cr;
  if decide (u' = u) then mret tt else panic "handle bound to another caller".

(** ** A small instance of the collaborators

    Tokens: ["alice"] and ["bob"] verify with a verified email,
    ["mallory"] verifies with an unverified email, ["garbled"] verifies
    but its claims do not decode; every other token is rejected.
    The backend keeps the charts saved so far. *)
Module Demo.

Inductive value :=
| VChart (c : coa.ChartOfAccounts.t)
| VCharts (l : list coa.ChartOfAccounts.t)
| VAccount (a : coa.Account.t)
| VAccounts (l : list coa.Account.t)
| VOutOfRange.                      (* a value [json.Marshal] rejects *)

Definition verify (token : string) : string + string :=
  if decide (token ∈ ["alice"; "bob"; "mallory"; "garbled"])
  then inl token
  else inr "oidc: malformed jwt".

Definition claims (t : string) : claims_t * error :=
  if decide (t = "alice") then (mkClaims "alice@example.com" true, None)
  else if decide (t = "bob") then (mkClaims "bob@example.com" true, None)
  else if decide (t = "mallory") then (mkClaims "mallory@example.com" false, None)
  else (mkClaims "" false, Some "json: cannot unmarshal").

Definition exec (_ : unit) (u : string) (c : coa.Call)
    (b : list coa.ChartOfAccounts.t)
  : Outcome (option value * error) * list coa.ChartOfAccounts.t :=
  match c with
  | coa.AllChartsOfAccounts => (Returned (Some (VCharts b), None), b)
  | coa.GetChartOfAccounts id =>
      match filter (λ c, coa.ChartOfAccounts.Id c = id) b with
      | c :: _ => (Returned (Some (VChart c), None), b)
      | [] => (Returned (None, Some "not found"), b)
      end
  | coa.SaveChartOfAccounts c =>
      if decide (coa.ChartOfAccounts.Id c = "epoch")
      then (Returned (Some VOutOfRange, None), c :: b)
      else (Returned (Some (VChart c), None), c :: b)
  | coa.AllAccounts _ => (Returned (Some (VAccounts []), None), b)
  | coa.GetAccount _ _ => (Returned (None, None), b)
  | coa.SaveAccount coaid a =>
      if decide (coaid = "locked")
      then (Panicked "store: connection lost", b)
      else (Returned (Some (VAccount a), None), b)
  end.

Definition marshal (v : value) : string + string :=
  match v with
  | VChart c =>
      inl ("{id:" +:+ coa.ChartOfAccounts.Id c +:+ ",user:" +:+
           coa.ChartOfAccounts.User c +:+ "}")
  | VAccount a =>
      inl ("{id:" +:+ coa.Account.Id a +:+ ",user:" +:+
           coa.Account.User a +:+ "}")
  | VCharts _ | VAccounts _ => inl "[]"
  | VOutOfRange => inr "json: error calling MarshalJSON for type time.Time"
  end.

(** Bodies are ["id,owner"] pairs out of a fixed table; anything else
    is malformed. *)
Definition fields (body : string) : option (string * string) :=
  if decide (body = "other,eve") then Some ("other", "eve")
  else if decide (body = "other,bob") then Some ("other", "bob")
  else if decide (body = "epoch,") then Some ("epoch", "")
  else if decide (body = ",") then Some ("", "")
  else None.

Definition unmarshal_chart (body : string) (c : coa.ChartOfAccounts.t)
  : coa.ChartOfAccounts.t * error :=
  match fields body with
  | Some (id, owner) =>
      (coa.ChartOfAccounts.mk id owner (coa.ChartOfAccounts.Fields c), None)
  | None => (c, Some "invalid character")
  end.

Definition unmarshal_account (body : string) (a : coa.Account.t)
  : coa.Account.t * error :=
  match fields body with
  | Some (id, owner) => (coa.Account.mk id owner (coa.Account.Fields a), None)
  | None => (a, Some "invalid character")
  end.

Definition env : Collaborators := {|
  IDToken := string;
  Value := value;
  KeyValueStore := unit;
  Backend := list coa.ChartOfAccounts.t;
  Verify := verify;
  Claims := claims;
  NewKeyValueStore := λ _, inl (Some tt);
  run := exec;
  Marshal := marshal;
  chart_json := unmarshal_chart;
  account_json := unmarshal_account
|}.

Definition request (token body : string) : http.Request :=
  http.mkRequest {[ "Authorization" := ["Bearer " +:+ token] ]} body.

Definition anonymous (body : string) : http.Request :=
  http.mkRequest ∅ body.

Definition param (k v : string) : httprouter.Param := httprouter.mkParam k v.

(** A world with an empty pool and an empty backend. *)
Definition start : @World env := @mkWorld env ∅ [] [] [] [].

(** A world whose pool holds one handle, last used by bob. *)
Definition warm : @World env :=
  @mkWorld env {[ 0 := @mkRepository env tt "bob@example.com" ]} [0] [] [] [].

(** A PUT of a chart whose stored form cannot be encoded. *)
Definition epoch_put : http.Request := request "alice" "epoch,".

(** The world in which the operation of [epoch_put] is started from
    [start]: the credential is verified, a handle is acquired and bound. *)
Definition epoch_dispatch : @World env :=
  let σ0 := (@user env epoch_put start).2 in
  let σ1 := (@repositoryPool_Get env σ0).2 in
  (@store_user env 0 "alice@example.com" σ1).2.

(** A PUT of a chart by alice that names another id and owner, and the
    worlds it goes through from [warm]: after the verification, after
    the acquisition, after the binding and after the operation. *)
Definition put_c1 : http.Request := request "alice" "other,eve".
Definition put_c1_verified : @World env := (@user env put_c1 warm).2.
Definition put_c1_acquired : @World env :=
  (@repositoryPool_Get env put_c1_verified).2.
Definition put_c1_bound : @World env :=
  (@store_user env 0 "alice@example.com" put_c1_acquired).2.
Definition put_c1_done : @World env :=
  (@saveChartsOfAccounts env 0 [param "coa" "c1"] (@Decode env put_c1)
     put_c1_bound).2.

(** An operation that returns the nil interface and no error. *)
Definition nothing : @operation env := λ _ _ _, mret (None, None).

(** The same collaborators with a storage plugin that cannot build a
    store, and the world of a server started with them. *)
Definition broken : Collaborators := {|
  IDToken := string;
  Value := value;
  KeyValueStore := unit;
  Backend := list coa.ChartOfAccounts.t;
  Verify := verify;
  Claims := claims;
  NewKeyValueStore := λ _, inr "plugin: cannot reach the store";
  run := exec;
  Marshal := marshal;
  chart_json := unmarshal_chart;
  account_json := unmarshal_account
|}.

Definition cold : @World broken := @mkWorld broken ∅ [] [] [] [].

(** A save request by alice whose body is not JSON, and the worlds it
    goes through from [warm] up to the acquisition. *)
Definition malformed : http.Request := request "alice" "{".
Definition malformed_verified : @World env := (@user env malformed warm).2.
Definition malformed_acquired : @World env :=
  (@repositoryPool_Get env malformed_verified).2.

(** The world after alice created a chart on a server that had not
    served yet. *)
Definition after_first : @World env :=
  (@serve env CreateChart http.NewResponseWriter put_c1 [] start).2.

(** A request that sends the token without the scheme, and a second
    value. *)
Definition bare_token (token body : string) : http.Request :=
  http.mkRequest {[ "Authorization" := [token; "ignored"] ]} body.

End Demo.

(** ** Further observations *)

(** The tokens handed to the verifier, in order. *)
Definition verified (l : list Event) : list string :=
  omap (λ e, match e with EvVerify t => Some t | _ => None end) l.

(** The number of times the body was decoded. *)
Definition decodes (l : list Event) : nat :=
  length (omap (λ e, match e with EvDecode => Some tt | _ => None end) l).

(** The error of decoding the body into the entity the route saves; no
    error for the routes that do not decode. *)
Definition decode_error `{Collaborators} (rt : Route) (r : http.Request)
  : error :=
  match rt with
  | CreateChart | PutChart =>
      (unmarshal (http.Body r) coa.ChartOfAccounts.zero).2
  | CreateAccount | PutAccount =>
      (unmarshal (http.Body r) coa.Account.zero).2
  | _ => None
  end.



(** A request without a credential: no Authorization header, a header
    without values, or a first value that is empty or the bare scheme. *)
Definition no_credential (r : http.Request) : bool :=
  match http.Header_ r !! "Authorization" with
  | None | Some [] => true
  | Some (t :: _) => bool_decide (t = "" ∨ t = "Bearer ")
  end.





(** * Properties *)
Section Properties.

Context `{Collaborators}.

Ltac unfold_M := unfold mbind, mret, M_bind, M_ret in *.

(** ** Strings and parameters *)

Lemma strip_app p s : Strings.strip (p +:+ s) p = Some s.
Proof.
  induction p as [|c p IH]; simpl; [done|]. by destruct (decide (c = c)).
Qed.

(** [TrimPrefix] removes a prefix that is there. *)
Lemma TrimPrefix_app p s : Strings.TrimPrefix (p +:+ s) p = s.
Proof. unfold Strings.TrimPrefix. by rewrite strip_app. Qed.

Example TrimPrefix_bearer :
  Strings.TrimPrefix "Bearer abc.def.ghi" "Bearer " = "abc.def.ghi".
Proof. reflexivity. Qed.

(** The scheme is matched exactly: another spelling stays in the token. *)
Example TrimPrefix_lowercase :
  Strings.TrimPrefix "bearer abc.def.ghi" "Bearer " = "bearer abc.def.ghi".
Proof. reflexivity. Qed.

Example ByName_first_match :
  httprouter.ByName
    [httprouter.mkParam "coa" "c1"; httprouter.mkParam "account" "a7";
     httprouter.mkParam "coa" "c2"] "coa" = "c1".
Proof. reflexivity. Qed.

Example ByName_absent :
  httprouter.ByName [httprouter.mkParam "coa" "c1"] "account" = "".
Proof. reflexivity. Qed.

(** The pool of a server that has not served yet is well formed. *)
Lemma pool_wf_empty hp sc b tr : pool_wf (mkWorld hp [] sc b tr).
Proof. split; simpl; constructor. Qed.

(** ** The authenticator *)

Lemma since_app (σ σ' : World) l :
  trace σ' = trace σ ++ l → since σ σ' = l.
Proof. unfold since. intros ->. by rewrite drop_app_length. Qed.

Lemma since_record e (σ : World) : since σ (record e σ) = [e].
Proof. by apply since_app. Qed.

(** [user] verifies the bearer credential once and returns what
    [authenticate] computes. *)
Lemma user_authenticate r σ :
  user r σ = (Returned (authenticate r), record (EvVerify (bearer r)) σ).
Proof.
  unfold user, authenticate, emit, record. unfold_M.
  destruct (Verify (bearer r)) as [t|e]; [|done].
  destruct (Claims t) as [c [e|]]; [done|].
  by destruct (Verified c).
Qed.

Lemma rejected_authenticate r :
  rejected r = true → ∃ msg, authenticate r = ("", Some msg).
Proof.
  unfold rejected, authenticate.
  destruct (Verify (bearer r)) as [t|e]; [|by eauto].
  destruct (Claims t) as [c [e|]]; [by eauto|].
  destruct (Verified c); [done|by eauto].
Qed.

Lemma Error_failure w msg :
  http.status w = None → http.body w = "" →
  failure (http.Error w msg http.StatusInternalServerError) msg.
Proof.
  intros Hs Hb. unfold failure, http.Error, http.Write, http.WriteHeader.
  simpl. rewrite Hs. simpl. rewrite Hb. split_and!; [done| |done].
  rewrite lookup_insert_ne; [|done]. by rewrite lookup_insert_eq.
Qed.


(** C7. A request without an Authorization header submits the empty
    credential to the verifier, and the verifier's refusal of it is what
    [user] returns, with no identity. *)
Theorem C7_missing_header_is_verified r σ e :
  http.Header_ r !! "Authorization" = None →
  Verify "" = inr e →
  bearer r = "" ∧
  user r σ = (Returned ("", Some e), record (EvVerify "") σ).
Proof.
  intros Hh Hv. assert (bearer r = "") as Hb by (unfold bearer; by rewrite Hh).
  split; [done|]. rewrite user_authenticate. unfold authenticate.
  by rewrite Hb, Hv.
Qed.

(** C1. When the credential of a request does not authenticate, the
    dispatcher answers with a failure response and does nothing else:
    the wrapped operation is not run, the pool and the backend are
    untouched, and the only event is the verification. *)
Theorem C1_rejected_request_fails_closed f w r ps σ :
  rejected r = true →
  http.status w = None → http.body w = "" →
  ∃ msg,
    handler f w r ps σ =
      (Returned (http.Error w msg http.StatusInternalServerError),
       record (EvVerify (bearer r)) σ) ∧
    failure (http.Error w msg http.StatusInternalServerError) msg ∧
    acquired (since σ (handler f w r ps σ).2) = [] ∧
    repo_calls (since σ (handler f w r ps σ).2) = [].
Proof.
  intros Hrej Hs Hb. destruct (rejected_authenticate r Hrej) as [msg Hmsg].
  exists msg.
  assert (handler f w r ps σ =
      (Returned (http.Error w msg http.StatusInternalServerError),
       record (EvVerify (bearer r)) σ)) as Heq.
  { unfold handler. unfold_M. rewrite user_authenticate, Hmsg. done. }
  rewrite Heq. simpl. rewrite since_record.
  split_and!; [done|by apply Error_failure|done|done].
Qed.

(** ** The operations *)

Lemma call_run cr c rep σ :
  heap σ !! cr = Some rep →
  ∃ o b, call cr c σ =
    (o, mkWorld (heap σ) (idle σ) (sched σ) b
                (trace σ ++ [EvRepo cr (user_ rep) c])).
Proof.
  intros Hrep. unfold call. rewrite Hrep.
  destruct (run _ _ _ _) as [o b]. by eauto.
Qed.

(** The operation of a route leaves the heap and the pool alone and adds
    the events of [op_trace]. *)
Lemma operation_run rt r ps cr rep σ :
  heap σ !! cr = Some rep →
  ∃ o b, route_operation rt cr ps (Decode r) σ =
    (o, mkWorld (heap σ) (idle σ) (sched σ) b
                (trace σ ++ op_trace rt r ps cr (user_ rep))).
Proof.
  intros Hrep.
  destruct rt; simpl;
    try (unfold chartsOfAccounts, getChartOfAccounts, accounts, getAccount;
         by apply call_run).
  all: unfold saveChartsOfAccounts, saveAccount, Decode, emit, load_user;
    unfold_M; simpl;
    destruct (unmarshal _ _) as [c [e|]]; simpl;
    [by destruct σ; eauto|];
    rewrite Hrep; simpl;
    match goal with
    | |- context [call ?a ?c ?w] =>
        destruct (call_run a c rep w Hrep) as (o & b & ->)
    end;
    simpl; rewrite <- app_assoc; by eauto.
Qed.

(** ** The pool *)

(** The three ways [repositoryPool.Get] can end. *)
Inductive got (σ : World) : Outcome addr → World → Prop :=
| got_idle k h :
    idle σ !! k = Some h →
    got σ (Returned h)
        (mkWorld (heap σ) (delete k (idle σ)) (tl (sched σ)) (backend σ)
                 (trace σ ++ [EvGet h]))
| got_new h v :
    heap σ !! h = None →
    got σ (Returned h)
        (mkWorld (<[h := mkRepository v ""]> (heap σ)) (idle σ)
                 (tl (sched σ)) (backend σ) (trace σ ++ [EvNew h; EvGet h]))
| got_panic e :
    got σ (Panicked e)
        (mkWorld (heap σ) (idle σ) (tl (sched σ)) (backend σ) (trace σ)).

Lemma Get_got σ :
  got σ (repositoryPool_Get σ).1 (repositoryPool_Get σ).2.
Proof.
  unfold repositoryPool_Get. simpl.
  destruct (idle σ !! hd 0 (sched σ)) as [h|] eqn:Hk; simpl.
  { by apply got_idle. }
  unfold repositoryPool_New, emit. unfold_M. simpl.
  destruct (NewKeyValueStore _) as [[v|]|e]; simpl.
  - rewrite <- app_assoc. apply got_new.
    apply not_elem_of_dom, is_fresh.
  - apply got_panic.
  - apply got_panic.
Qed.

(** ** The dispatcher *)

(** A request that authenticates as [u], gets the handle [h] and binds
    it, runs [f] once, on the bound handle, answers from its result and
    puts the handle back, also when [f] panics. *)
Lemma handler_run f w r ps σ u h σ1 σ2 o σ3 :
  authenticate r = (u, None) →
  repositoryPool_Get (record (EvVerify (bearer r)) σ) = (Returned h, σ1) →
  store_user h u σ1 = (Returned tt, σ2) →
  f h ps (Decode r) σ2 = (o, σ3) →
  handler f w r ps σ =
    (match o with
     | Returned res => Returned (respond w res)
     | Panicked e => Panicked e
     end,
     (repositoryPool_Put h σ3).2).
Proof.
  intros Ha Hg Hs Hf. unfold handler. unfold_M.
  rewrite user_authenticate, Ha. simpl. rewrite Hg, Hs.
  unfold defer. rewrite Hf. destruct o as [[v err]|e]; simpl; [|done].
  destruct v as [v|], err as [e|]; simpl; try done.
  unfold Encode. by destruct (Marshal v).
Qed.

Lemma handler_panic_Get f w r ps σ u e σ1 :
  authenticate r = (u, None) →
  repositoryPool_Get (record (EvVerify (bearer r)) σ) = (Panicked e, σ1) →
  handler f w r ps σ = (Panicked e, σ1).
Proof.
  intros Ha Hg. unfold handler. unfold_M.
  rewrite user_authenticate, Ha. simpl. by rewrite Hg.
Qed.

Lemma handler_panic_store f w r ps σ u h e σ1 σ2 :
  authenticate r = (u, None) →
  repositoryPool_Get (record (EvVerify (bearer r)) σ) = (Returned h, σ1) →
  store_user h u σ1 = (Panicked e, σ2) →
  handler f w r ps σ = (Panicked e, σ2).
Proof.
  intros Ha Hg Hs. unfold handler. unfold_M.
  rewrite user_authenticate, Ha. simpl. by rewrite Hg, Hs.
Qed.

Lemma handler_rejected f w r ps σ msg :
  authenticate r = ("", Some msg) →
  handler f w r ps σ =
    (Returned (http.Error w msg http.StatusInternalServerError),
     record (EvVerify (bearer r)) σ).
Proof.
  intros Ha. unfold handler. unfold_M. by rewrite user_authenticate, Ha.
Qed.

Lemma authenticate_cases r :
  (∃ u, authenticate r = (u, None)) ∨ (∃ msg, authenticate r = ("", Some msg)).
Proof.
  unfold authenticate. destruct (Verify (bearer r)) as [t|e]; [|by eauto].
  destruct (Claims t) as [c [e|]]; [by eauto|].
  destruct (Verified c); by eauto.
Qed.

Lemma store_user_bound h u σ rep :
  heap σ !! h = Some rep →
  store_user h u σ =
    (Returned tt,
     mkWorld (<[h := mkRepository (CoaRepository rep) u]> (heap σ)) (idle σ)
             (sched σ) (backend σ) (trace σ)).
Proof. intros Hrep. unfold store_user. by rewrite Hrep. Qed.

Lemma store_user_dangling h u σ :
  heap σ !! h = None → ∃ e, store_user h u σ = (Panicked e, σ).
Proof. intros Hrep. unfold store_user. rewrite Hrep. by eauto. Qed.

(** The world a route leaves behind once the handle [h] was acquired. *)
Lemma serve_run rt w r ps σ u h σ1 rep :
  authenticate r = (u, None) →
  repositoryPool_Get (record (EvVerify (bearer r)) σ) = (Returned h, σ1) →
  heap σ1 !! h = Some rep →
  ∃ o b, serve rt w r ps σ =
    (o, mkWorld (<[h := mkRepository (CoaRepository rep) u]> (heap σ1))
                (idle σ1 ++ [h]) (sched σ1) b
                (trace σ1 ++ op_trace rt r ps h u ++ [EvPut h])).
Proof.
  intros Ha Hg Hrep.
  pose proof (store_user_bound h u σ1 rep Hrep) as Hs.
  set (σ2 := mkWorld _ _ _ _ _) in Hs.
  destruct (operation_run rt r ps h (mkRepository (CoaRepository rep) u) σ2)
    as (o & b & Hop).
  { apply lookup_insert_eq. }
  unfold serve. rewrite (handler_run _ w r ps σ u h σ1 σ2 _ _ Ha Hg Hs Hop).
  do 2 eexists. f_equal. unfold repositoryPool_Put. simpl.
  by rewrite <- app_assoc.
Qed.

(** The events of a request that authenticates. *)
Lemma serve_trace rt w r ps σ u :
  authenticate r = (u, None) →
  ∃ l, since σ (serve rt w r ps σ).2 = EvVerify (bearer r) :: l ∧
       served σ rt r ps u l.
Proof.
  intros Ha.
  pose proof (Get_got (record (EvVerify (bearer r)) σ)) as Hgot.
  destruct (repositoryPool_Get _) as [o σ1] eqn:Hg. simpl in Hgot.
  inversion Hgot as [k h Hk Ho Hσ|h v Hh Ho Hσ|e Ho Hσ]; subst o.
  - destruct (heap σ1 !! h) as [rep|] eqn:Hrep.
    + destruct (serve_run rt w r ps σ u h σ1 rep Ha Hg Hrep) as (o & b & ->).
      eexists. split; [|apply (served_run _ _ _ _ _ [] h); by left].
      apply since_app. simpl. rewrite <- Hσ. simpl.
      by rewrite <- !app_assoc.
    + destruct (store_user_dangling h u σ1 Hrep) as [e Hs].
      unfold serve. rewrite (handler_panic_store _ w r ps σ u h e σ1 σ1 Ha Hg Hs).
      exists [EvGet h]. split.
      * apply since_app. simpl. rewrite <- Hσ. simpl. by rewrite <- !app_assoc.
      * constructor.
        -- by apply list_elem_of_lookup_2 in Hk.
        -- by rewrite <- Hσ in Hrep.
  - assert (heap σ1 !! h = Some (mkRepository v "")) as Hrep.
    { rewrite <- Hσ. simpl. apply lookup_insert_eq. }
    destruct (serve_run rt w r ps σ u h σ1 _ Ha Hg Hrep) as (o & b & ->).
    eexists. split; [|apply (served_run _ _ _ _ _ [EvNew h] h); by right].
    apply since_app. simpl. rewrite <- Hσ. simpl.
    by rewrite <- !app_assoc.
  - unfold serve. rewrite (handler_panic_Get _ w r ps σ u e σ1 Ha Hg).
    exists []. split; [|constructor].
    apply since_app. simpl. by rewrite <- Hσ.
Qed.

Lemma serve_rejected_trace rt w r ps σ msg :
  authenticate r = ("", Some msg) →
  since σ (serve rt w r ps σ).2 = [EvVerify (bearer r)].
Proof.
  intros Ha. unfold serve. rewrite (handler_rejected _ w r ps σ msg Ha).
  apply since_record.
Qed.

Lemma user_inv r σ res σ0 :
  user r σ = (Returned res, σ0) →
  authenticate r = res ∧ σ0 = record (EvVerify (bearer r)) σ.
Proof. rewrite user_authenticate. by intros [= -> ->]. Qed.

(** The operation of a route only decodes and calls the repository, on
    the handle and under the identity it was given. *)
Lemma op_trace_events rt r ps h u e :
  e ∈ op_trace rt r ps h u → e = EvDecode ∨ ∃ c, e = EvRepo h u c.
Proof.
  unfold op_trace.
  destruct rt; try destruct (unmarshal _ _) as [? [?|]]; intros Hin;
    repeat (apply elem_of_cons in Hin as [->|Hin]);
    try (by apply elem_of_nil in Hin); by eauto.
Qed.

Lemma op_trace_acquired rt r ps h u : acquired (op_trace rt r ps h u) = [].
Proof.
  unfold op_trace.
  by destruct rt; try destruct (unmarshal _ _) as [? [?|]].
Qed.

Lemma op_trace_released rt r ps h u : released (op_trace rt r ps h u) = [].
Proof.
  unfold op_trace.
  by destruct rt; try destruct (unmarshal _ _) as [? [?|]].
Qed.

Lemma served_calls σ rt r ps u l h x c :
  served σ rt r ps u l →
  (h, x, c) ∈ repo_calls l →
  EvRepo h x c ∈ op_trace rt r ps h u ∧ x = u ∧ acquired l = [h].
Proof.
  intros Hl Hin. apply list_elem_of_omap in Hin as (e & He & Hc).
  destruct e as [| | | | |h0 x0 c0]; try done.
  injection Hc as ? ? ?. subst h0 x0 c0.
  destruct Hl as [|h' ? ?|pre h' Hpre].
  - by apply elem_of_nil in He.
  - apply list_elem_of_singleton in He. done.
  - assert (EvRepo h x c ∈ op_trace rt r ps h' u) as Hop.
    { rewrite elem_of_app, elem_of_cons, elem_of_app in He.
      destruct He as [He|[He|[He|He]]]; [|done|done|].
      - destruct Hpre as [-> | ->]; [by apply elem_of_nil in He|].
        by apply list_elem_of_singleton in He.
      - by apply list_elem_of_singleton in He. }
    destruct (op_trace_events _ _ _ _ _ _ Hop) as [?|[c' [= Hh Hx Hc]]]; [done|].
    subst h' x c'. split_and!; [done|done|].
    unfold acquired. rewrite omap_app. simpl. rewrite omap_app.
    fold (acquired (op_trace rt r ps h u)). rewrite op_trace_acquired.
    by destruct Hpre as [-> | ->].
Qed.

Lemma served_pool σ rt r ps u l :
  pool_wf σ → served σ rt r ps u l →
  released l = acquired l ∧ (length (acquired l) ≤ 1)%nat.
Proof.
  intros [_ Hwf] Hl. rewrite Forall_forall in Hwf.
  destruct Hl as [|h Hin Hnone|pre h Hpre].
  - simpl. split; [done|lia].
  - destruct (Hwf h Hin) as [rep Hrep]. congruence.
  - unfold released, acquired. rewrite !omap_app. simpl. rewrite !omap_app.
    fold (acquired (op_trace rt r ps h u)) (released (op_trace rt r ps h u)).
    rewrite op_trace_acquired, op_trace_released.
    destruct Hpre as [-> | ->]; simpl; (split; [done|lia]).
Qed.

Lemma record_pool_wf e σ : pool_wf σ → pool_wf (record e σ).
Proof. done. Qed.

(** Serving a request keeps the pool well formed. *)
Lemma serve_pool_wf rt w r ps σ :
  pool_wf σ → pool_wf (serve rt w r ps σ).2.
Proof.
  unfold pool_wf. rewrite !Forall_forall. intros [Hnd Hwf].
  destruct (authenticate_cases r) as [[u Ha]|[msg Ha]].
  2:{ unfold serve. by rewrite (handler_rejected _ w r ps σ msg Ha). }
  pose proof (Get_got (record (EvVerify (bearer r)) σ)) as Hgot.
  destruct (repositoryPool_Get _) as [o σ1] eqn:Hg. simpl in Hgot.
  inversion Hgot as [k h Hk Ho Hσ|h v Hh Ho Hσ|e Ho Hσ]; subst o; simpl in *.
  - assert (h ∈ idle σ) as Hin by by apply list_elem_of_lookup_2 in Hk.
    destruct (Hwf h Hin) as [rep Hrep].
    assert (heap σ1 !! h = Some rep) as Hrep1 by by rewrite <- Hσ.
    destruct (serve_run rt w r ps σ u h σ1 rep Ha Hg Hrep1) as (o & b & ->).
    rewrite <- Hσ. simpl.
    assert (delete k (idle σ) ++ [h] ≡ₚ idle σ) as Hperm.
    { rewrite (delete_Permutation (idle σ) k h Hk) at 2.
      by rewrite Permutation_app_comm. }
    split; simpl.
    + by rewrite Hperm.
    + intros x Hx. rewrite Hperm in Hx. apply lookup_insert_is_Some'. eauto.
  - assert (heap σ1 !! h = Some (mkRepository v "")) as Hrep1.
    { rewrite <- Hσ. simpl. apply lookup_insert_eq. }
    destruct (serve_run rt w r ps σ u h σ1 _ Ha Hg Hrep1) as (o & b & ->).
    rewrite <- Hσ. simpl. split; simpl.
    + apply NoDup_app. split_and!; [done| |apply NoDup_singleton].
      intros x Hx ->%list_elem_of_singleton.
      destruct (Hwf h Hx) as [rep Hrep]. congruence.
    + intros x [Hx| ->%list_elem_of_singleton]%elem_of_app.
      * apply lookup_insert_is_Some'. right.
        apply lookup_insert_is_Some'. eauto.
      * rewrite lookup_insert_eq. by eauto.
  - unfold serve. by rewrite (handler_panic_Get _ w r ps σ u e σ1 Ha Hg), <- Hσ.
Qed.

Lemma op_trace_owner rt r ps h u h' x c o :
  EvRepo h' x c ∈ op_trace rt r ps h u → saved_owner c = Some o → o = u.
Proof.
  unfold op_trace.
  destruct rt; try destruct (unmarshal _ _) as [? [?|]]; intros Hin;
    repeat (apply elem_of_cons in Hin as [Hin|Hin]);
    try (by apply elem_of_nil in Hin); try done;
    injection Hin as ? ? ?; subst; simpl; congruence.
Qed.

Lemma bearer_header r1 r2 :
  http.Header_ r1 = http.Header_ r2 → bearer r1 = bearer r2.
Proof. unfold bearer. by intros ->. Qed.

Lemma authenticate_bearer r1 r2 :
  bearer r1 = bearer r2 → authenticate r1 = authenticate r2.
Proof. unfold authenticate. by intros ->. Qed.

(** The dispatcher treats alike two requests with the same credential
    on which the operation behaves the same. *)
Lemma handler_ext (f g : operation) w r1 r2 ps σ :
  bearer r1 = bearer r2 →
  (∀ cr σ', f cr ps (Decode r1) σ' = g cr ps (Decode r2) σ') →
  handler f w r1 ps σ = handler g w r2 ps σ.
Proof.
  intros Hb Hfg. unfold handler. unfold_M. rewrite !user_authenticate.
  rewrite (authenticate_bearer r1 r2 Hb), Hb.
  destruct (authenticate r2) as [u [e|]]; simpl; [done|].
  destruct (repositoryPool_Get _) as [[h|e] σ1]; [|done].
  destruct (store_user h u σ1) as [[[]|e] σ2]; [|done].
  unfold defer. by rewrite Hfg.
Qed.

Lemma assert_bound_run h u kv σ :
  heap σ !! h = Some (mkRepository kv u) →
  assert_bound h u σ = (Returned tt, σ).
Proof.
  intros Hrep. unfold assert_bound, load_user. unfold_M. rewrite Hrep. simpl.
  by rewrite decide_True.
Qed.

(** The save operations do the same on two requests that differ at most
    in the owner named in the body. *)
Lemma save_same_but_owner rt r1 r2 ps cr σ :
  same_but_owner r1 r2 →
  route_operation rt cr ps (Decode r1) σ =
  route_operation rt cr ps (Decode r2) σ.
Proof.
  intros (_ & (Hce & Hci & Hcf) & (Hae & Hai & Haf)).
  destruct (unmarshal (http.Body r1) coa.ChartOfAccounts.zero)
    as [[i1 u1 f1] e1] eqn:E1,
    (unmarshal (http.Body r2) coa.ChartOfAccounts.zero)
    as [[i2 u2 f2] e2] eqn:E2,
    (unmarshal (http.Body r1) coa.Account.zero) as [[j1 v1 g1] d1] eqn:E3,
    (unmarshal (http.Body r2) coa.Account.zero) as [[j2 v2 g2] d2] eqn:E4.
  simpl in *. subst.
  destruct rt; simpl; try done.
  all: unfold saveChartsOfAccounts, saveAccount, Decode, emit; unfold_M; simpl;
    rewrite ?E1, ?E2, ?E3, ?E4.
  1,2: destruct e2; [done|].
  3,4: destruct d2; [done|].
  all: unfold load_user; simpl; destruct (heap σ !! cr); [|done];
    by case_decide.
Qed.

(** ** The claims about the operations and the dispatcher *)

(** C2. Every save a request makes persists an entity owned by the
    identity the request authenticated as; and two requests that differ
    at most in the owner named in their bodies are served identically:
    same response, same repository calls, same backend. *)
Theorem C2_owner_is_caller rt w r ps σ u σ0 :
  user r σ = (Returned (u, None), σ0) →
  (∀ h x c o,
     (h, x, c) ∈ repo_calls (since σ (serve rt w r ps σ).2) →
     saved_owner c = Some o → o = u) ∧
  (∀ r', same_but_owner r r' → serve rt w r ps σ = serve rt w r' ps σ).
Proof.
  intros [Ha _]%user_inv. split.
  - intros h x c o Hin Ho.
    destruct (serve_trace rt w r ps σ u Ha) as (l & Hl & Hs).
    rewrite Hl in Hin. change (repo_calls (_ :: l)) with (repo_calls l) in Hin.
    destruct (served_calls _ _ _ _ _ _ _ _ _ Hs Hin) as (Hop & _ & _).
    by eapply op_trace_owner.
  - intros r' Hsame. unfold serve. apply handler_ext.
    + apply bearer_header, Hsame.
    + intros cr σ'. by apply save_same_but_owner.
Qed.

(** C3. When the body decodes, a save operation passes one entity to
    the repository: its id is the path id when the path has a non-empty
    one, whatever id the body carried, and the id of the body when the
    path id is absent or empty; the other fields are those of the body. *)
Theorem C3_path_id_overrides_body_id r ps cr rep σ :
  heap σ !! cr = Some rep →
  (∀ c, unmarshal (http.Body r) coa.ChartOfAccounts.zero = (c, None) →
     ∃ c',
       repo_calls (since σ (saveChartsOfAccounts cr ps (Decode r) σ).2) =
         [(cr, user_ rep, coa.SaveChartOfAccounts c')] ∧
       (httprouter.ByName ps "coa" ≠ "" →
          coa.ChartOfAccounts.Id c' = httprouter.ByName ps "coa") ∧
       (httprouter.ByName ps "coa" = "" →
          coa.ChartOfAccounts.Id c' = coa.ChartOfAccounts.Id c) ∧
       coa.ChartOfAccounts.Fields c' = coa.ChartOfAccounts.Fields c) ∧
  (∀ a, unmarshal (http.Body r) coa.Account.zero = (a, None) →
     ∃ a',
       repo_calls (since σ (saveAccount cr ps (Decode r) σ).2) =
         [(cr, user_ rep, coa.SaveAccount (httprouter.ByName ps "coa") a')] ∧
       (httprouter.ByName ps "account" ≠ "" →
          coa.Account.Id a' = httprouter.ByName ps "account") ∧
       (httprouter.ByName ps "account" = "" →
          coa.Account.Id a' = coa.Account.Id a) ∧
       coa.Account.Fields a' = coa.Account.Fields a).
Proof.
  intros Hrep. split.
  - intros c Hc.
    destruct (operation_run PutChart r ps cr rep σ Hrep) as (o & b & Hop).
    simpl in Hop. rewrite Hop. simpl. rewrite since_app with (l := op_trace PutChart r ps cr (user_ rep)); [|done].
    unfold op_trace. rewrite Hc. eexists. split; [done|].
    case_decide; simpl; by split_and!.
  - intros a Ha.
    destruct (operation_run PutAccount r ps cr rep σ Hrep) as (o & b & Hop).
    simpl in Hop. rewrite Hop. simpl. rewrite since_app with (l := op_trace PutAccount r ps cr (user_ rep)); [|done].
    unfold op_trace. rewrite Ha. eexists. split; [done|].
    case_decide; simpl; by split_and!.
Qed.

(** C4. Once a request has authenticated as [u], the handle it acquires
    is bound to [u] before the operation starts: asserting so at the
    start of any operation changes nothing.  For the routes of [main],
    every repository call of the request runs on the one handle the
    request acquired and under the identity [u]. *)
Theorem C4_handle_bound_before_dispatch rt f w r ps σ u σ0 :
  user r σ = (Returned (u, None), σ0) →
  handler f w r ps σ =
    handler (λ cr ps d, _ ← assert_bound cr u; f cr ps d) w r ps σ ∧
  (∀ h x c,
     (h, x, c) ∈ repo_calls (since σ (serve rt w r ps σ).2) →
     x = u ∧ acquired (since σ (serve rt w r ps σ).2) = [h]).
Proof.
  intros [Ha _]%user_inv. split.
  - destruct (repositoryPool_Get (record (EvVerify (bearer r)) σ))
      as [[h|e] σ1] eqn:Hg.
    2:{ by rewrite !(handler_panic_Get _ w r ps σ u e σ1 Ha Hg). }
    destruct (heap σ1 !! h) as [rep|] eqn:Hrep.
    2:{ destruct (store_user_dangling h u σ1 Hrep) as [e Hs].
        by rewrite !(handler_panic_store _ w r ps σ u h e σ1 σ1 Ha Hg Hs). }
    pose proof (store_user_bound h u σ1 rep Hrep) as Hs.
    set (σ2 := mkWorld _ _ _ _ _) in Hs.
    destruct (f h ps (Decode r) σ2) as [o σ3] eqn:Hf.
    rewrite (handler_run f w r ps σ u h σ1 σ2 o σ3 Ha Hg Hs Hf).
    symmetry. apply (handler_run _ w r ps σ u h σ1 σ2 o σ3 Ha Hg Hs).
    unfold_M. rewrite (assert_bound_run h u (CoaRepository rep)); [done|].
    apply lookup_insert_eq.
  - intros h x c Hin.
    destruct (serve_trace rt w r ps σ u Ha) as (l & Hl & Hs).
    rewrite Hl in *. change (repo_calls (_ :: l)) with (repo_calls l) in Hin.
    change (acquired (_ :: l)) with (acquired l).
    by destruct (served_calls _ _ _ _ _ _ _ _ _ Hs Hin) as (_ & ? & ?).
Qed.

(** C5. Whatever a request does (it is refused, its operation returns a
    result or an error or panics, the result cannot be encoded), the
    handles it puts back are the handles it took, there is at most one,
    and the pool stays well formed: the handle is idle once. *)
Theorem C5_one_release_per_acquire rt w r ps σ :
  pool_wf σ →
  released (since σ (serve rt w r ps σ).2) =
    acquired (since σ (serve rt w r ps σ).2) ∧
  (length (acquired (since σ (serve rt w r ps σ).2)) ≤ 1)%nat ∧
  pool_wf (serve rt w r ps σ).2.
Proof.
  intros Hwf.
  assert (released (since σ (serve rt w r ps σ).2) =
            acquired (since σ (serve rt w r ps σ).2) ∧
          (length (acquired (since σ (serve rt w r ps σ).2)) ≤ 1)%nat) as [? ?].
  { destruct (authenticate_cases r) as [[u Ha]|[msg Ha]].
    - destruct (serve_trace rt w r ps σ u Ha) as (l & -> & Hs).
      by apply (served_pool σ rt r ps u l).
    - rewrite (serve_rejected_trace rt w r ps σ msg Ha). simpl.
      split; [done|lia]. }
  split_and!; [done|done|by apply serve_pool_wf].
Qed.

(** C8. When the body of a save request does not decode, the operation
    returns the decoding error with no result, and the decoding is all
    it did: the repository is not called and the backend is unchanged. *)
Theorem C8_decode_failure_stops_save r ps cr σ :
  (∀ c e, unmarshal (http.Body r) coa.ChartOfAccounts.zero = (c, Some e) →
     saveChartsOfAccounts cr ps (Decode r) σ =
       (Returned (None, Some e), record EvDecode σ)) ∧
  (∀ a e, unmarshal (http.Body r) coa.Account.zero = (a, Some e) →
     saveAccount cr ps (Decode r) σ =
       (Returned (None, Some e), record EvDecode σ)).
Proof.
  split; intros x e Hx;
    unfold saveChartsOfAccounts, saveAccount, Decode, emit; unfold_M; simpl;
    by rewrite Hx.
Qed.

Lemma Set_fresh k v w :
  http.status (http.Set_ k v w) = http.status w ∧
  http.body (http.Set_ k v w) = http.body w.
Proof. done. Qed.

(** C9 (amended). On a fresh response, after the operation returned:
    an error gives a failure response with its message; no error and a
    nil result leave the response unwritten; no error and a result
    that encodes give status 200, the JSON content type and the
    encoding followed by a line feed as body; a result that does not
    encode gives a failure response with the encoder's message. *)
Theorem C9_response_follows_result f w r ps σ u σ0 h σ1 σ2 v err σ3 :
  http.status w = None → http.body w = "" →
  user r σ = (Returned (u, None), σ0) →
  repositoryPool_Get σ0 = (Returned h, σ1) →
  store_user h u σ1 = (Returned tt, σ2) →
  f h ps (Decode r) σ2 = (Returned (v, err), σ3) →
  ∃ w',
    handler f w r ps σ = (Returned w', (repositoryPool_Put h σ3).2) ∧
    match err, v with
    | Some e, _ => failure w' e
    | None, None => w' = w
    | None, Some val =>
        match Marshal val with
        | inl js =>
            http.status w' = Some http.StatusOK ∧
            http.sent w' !! "Content-Type" = Some ["application/json"] ∧
            http.body w' = js +:+ newline
        | inr e => failure w' e
        end
    end.
Proof.
  intros Hs Hb [Ha ->]%user_inv Hg Hst Hf.
  rewrite (handler_run f w r ps σ u h σ1 σ2 _ σ3 Ha Hg Hst Hf).
  eexists. split; [done|].
  destruct v as [val|], err as [e|]; simpl; try done;
    try by apply Error_failure.
  destruct (Marshal val) as [js|e].
  - unfold http.Write, http.WriteHeader. simpl. rewrite Hs. simpl.
    rewrite Hb. split_and!; [done| |done]. by rewrite lookup_insert_eq.
  - by apply Error_failure.
Qed.

(** C10. The operation of a GET route is one repository call that is
    fixed by the path parameters and runs on the handle; it is the same
    whatever decoder it is given.  Serving the route never decodes the
    body, and two requests with the same headers are served
    identically. *)
Theorem C10_reads_ignore_the_body rt :
  route_method rt = GET →
  (∃ c : httprouter.Params → coa.Call,
     ∀ cr ps d, route_operation rt cr ps d = call cr (c ps)) ∧
  (∀ cr ps d d', route_operation rt cr ps d = route_operation rt cr ps d') ∧
  (∀ w r ps σ, EvDecode ∉ since σ (serve rt w r ps σ).2) ∧
  (∀ w r r' ps σ,
     http.Header_ r = http.Header_ r' →
     serve rt w r ps σ = serve rt w r' ps σ).
Proof.
  intros Hget. split_and!.
  - destruct rt; try done.
    + by exists (λ _, coa.AllChartsOfAccounts).
    + by exists (λ ps, coa.GetChartOfAccounts (httprouter.ByName ps "coa")).
    + by exists (λ ps, coa.AllAccounts (httprouter.ByName ps "coa")).
    + by exists (λ ps, coa.GetAccount (httprouter.ByName ps "coa")
                                     (httprouter.ByName ps "account")).
  - by destruct rt.
  - intros w r ps σ.
    destruct (authenticate_cases r) as [[u Ha]|[msg Ha]].
    2:{ rewrite (serve_rejected_trace rt w r ps σ msg Ha).
        by intros ?%list_elem_of_singleton. }
    destruct (serve_trace rt w r ps σ u Ha) as (l & -> & Hs).
    intros [?|Hin]%elem_of_cons; [done|].
    destruct Hs as [|h ? ?|pre h Hpre].
    + by apply elem_of_nil in Hin.
    + by apply list_elem_of_singleton in Hin.
    + rewrite elem_of_app, elem_of_cons, elem_of_app in Hin.
      destruct Hin as [Hin|[?|[Hin|Hin]]]; [|done| |].
      * destruct Hpre as [-> | ->]; [by apply elem_of_nil in Hin|].
        by apply list_elem_of_singleton in Hin.
      * destruct rt; try done; simpl in Hin;
          by apply list_elem_of_singleton in Hin.
      * by apply list_elem_of_singleton in Hin.
  - intros w r r' ps σ Hh. unfold serve. apply handler_ext.
    + by apply bearer_header.
    + intros cr σ'. by destruct rt.
Qed.

End Properties.

(** * The properties on the instance [Demo] *)

Lemma C1_witness :
  @rejected Demo.env (Demo.anonymous "other,eve") = true ∧
  ∃ msg,
    @handler Demo.env (@saveChartsOfAccounts Demo.env) http.NewResponseWriter
      (Demo.anonymous "other,eve") [] Demo.warm =
      (Returned (http.Error http.NewResponseWriter msg
                   http.StatusInternalServerError),
       record (EvVerify (@bearer (Demo.anonymous "other,eve"))) Demo.warm) ∧
    failure (http.Error http.NewResponseWriter msg
               http.StatusInternalServerError) msg ∧
    acquired (since Demo.warm
      (@handler Demo.env (@saveChartsOfAccounts Demo.env) http.NewResponseWriter
         (Demo.anonymous "other,eve") [] Demo.warm).2) = [] ∧
    repo_calls (since Demo.warm
      (@handler Demo.env (@saveChartsOfAccounts Demo.env) http.NewResponseWriter
         (Demo.anonymous "other,eve") [] Demo.warm).2) = [].
Proof.
  split; [reflexivity|].
  apply (@C1_rejected_request_fails_closed Demo.env); reflexivity.
Defined.


Lemma C7_witness :
  bearer (Demo.anonymous "") = "" ∧
  @user Demo.env (Demo.anonymous "") Demo.start =
    (Returned ("", Some "oidc: malformed jwt"), record (EvVerify "") Demo.start).
Proof.
  apply (@C7_missing_header_is_verified Demo.env (Demo.anonymous "") Demo.start);
    reflexivity.
Defined.

Lemma C2_witness :
  @user Demo.env (Demo.request "alice" "other,eve") Demo.warm =
    (Returned ("alice@example.com", None),
     record (EvVerify "alice") Demo.warm) ∧
  (∀ h x c o,
     (h, x, c) ∈ repo_calls (since Demo.warm
        (@serve Demo.env PutChart http.NewResponseWriter
           (Demo.request "alice" "other,eve") [Demo.param "coa" "c1"]
           Demo.warm).2) →
     saved_owner c = Some o → o = "alice@example.com") ∧
  (∀ r', @same_but_owner Demo.env (Demo.request "alice" "other,eve") r' →
     @serve Demo.env PutChart http.NewResponseWriter
       (Demo.request "alice" "other,eve") [Demo.param "coa" "c1"] Demo.warm =
     @serve Demo.env PutChart http.NewResponseWriter r'
       [Demo.param "coa" "c1"] Demo.warm).
Proof.
  split; [reflexivity|].
  apply (@C2_owner_is_caller Demo.env PutChart http.NewResponseWriter
           (Demo.request "alice" "other,eve") [Demo.param "coa" "c1"]
           Demo.warm "alice@example.com" (record (EvVerify "alice") Demo.warm)).
  reflexivity.
Defined.

Lemma C3_witness :
  (∀ c, @unmarshal _ (@chart_json Demo.env) "other,eve" coa.ChartOfAccounts.zero
          = (c, None) →
     ∃ c',
       repo_calls (since Demo.warm
         (@saveChartsOfAccounts Demo.env 0 [Demo.param "coa" "c1"]
            (Decode (Demo.request "alice" "other,eve")) Demo.warm).2) =
         [(0, "bob@example.com", coa.SaveChartOfAccounts c')] ∧
       (httprouter.ByName [Demo.param "coa" "c1"] "coa" ≠ "" →
          coa.ChartOfAccounts.Id c' = "c1") ∧
       (httprouter.ByName [Demo.param "coa" "c1"] "coa" = "" →
          coa.ChartOfAccounts.Id c' = coa.ChartOfAccounts.Id c) ∧
       coa.ChartOfAccounts.Fields c' = coa.ChartOfAccounts.Fields c) ∧
  (∀ a, @unmarshal _ (@account_json Demo.env) "other,eve" coa.Account.zero
          = (a, None) →
     ∃ a',
       repo_calls (since Demo.warm
         (@saveAccount Demo.env 0 [Demo.param "coa" "c1"]
            (Decode (Demo.request "alice" "other,eve")) Demo.warm).2) =
         [(0, "bob@example.com", coa.SaveAccount "c1" a')] ∧
       (httprouter.ByName [Demo.param "coa" "c1"] "account" ≠ "" →
          coa.Account.Id a' = "") ∧
       (httprouter.ByName [Demo.param "coa" "c1"] "account" = "" →
          coa.Account.Id a' = coa.Account.Id a) ∧
       coa.Account.Fields a' = coa.Account.Fields a).
Proof.
  apply (@C3_path_id_overrides_body_id Demo.env
           (Demo.request "alice" "other,eve") [Demo.param "coa" "c1"] 0
           (@mkRepository Demo.env tt "bob@example.com") Demo.warm).
  reflexivity.
Defined.

Lemma C4_witness :
  @handler Demo.env (@saveChartsOfAccounts Demo.env) http.NewResponseWriter
    (Demo.request "alice" "other,eve") [] Demo.warm =
  @handler Demo.env
    (λ cr ps d, _ ← @assert_bound Demo.env cr "alice@example.com";
                @saveChartsOfAccounts Demo.env cr ps d)
    http.NewResponseWriter (Demo.request "alice" "other,eve") [] Demo.warm ∧
  (∀ h x c,
     (h, x, c) ∈ repo_calls (since Demo.warm
        (@serve Demo.env CreateAccount http.NewResponseWriter
           (Demo.request "alice" "other,eve") [] Demo.warm).2) →
     x = "alice@example.com" ∧
     acquired (since Demo.warm
        (@serve Demo.env CreateAccount http.NewResponseWriter
           (Demo.request "alice" "other,eve") [] Demo.warm).2) = [h]).
Proof.
  apply (@C4_handle_bound_before_dispatch Demo.env CreateAccount
           (@saveChartsOfAccounts Demo.env) http.NewResponseWriter
           (Demo.request "alice" "other,eve") [] Demo.warm
           "alice@example.com" (record (EvVerify "alice") Demo.warm)).
  reflexivity.
Defined.

Lemma C5_witness :
  @pool_wf Demo.env Demo.warm ∧
  released (since Demo.warm
    (@serve Demo.env CreateAccount http.NewResponseWriter
       (Demo.request "alice" "other,eve") [Demo.param "coa" "locked"]
       Demo.warm).2) =
  acquired (since Demo.warm
    (@serve Demo.env CreateAccount http.NewResponseWriter
       (Demo.request "alice" "other,eve") [Demo.param "coa" "locked"]
       Demo.warm).2) ∧
  (length (acquired (since Demo.warm
    (@serve Demo.env CreateAccount http.NewResponseWriter
       (Demo.request "alice" "other,eve") [Demo.param "coa" "locked"]
       Demo.warm).2)) ≤ 1)%nat ∧
  @pool_wf Demo.env
    (@serve Demo.env CreateAccount http.NewResponseWriter
       (Demo.request "alice" "other,eve") [Demo.param "coa" "locked"]
       Demo.warm).2.
Proof.
  assert (@pool_wf Demo.env Demo.warm) as Hwf.
  { apply (bool_decide_unpack (@pool_wf Demo.env Demo.warm)). vm_compute. exact I. }
  split; [exact Hwf|].
  apply (@C5_one_release_per_acquire Demo.env CreateAccount
           http.NewResponseWriter (Demo.request "alice" "other,eve")
           [Demo.param "coa" "locked"] Demo.warm Hwf).
Defined.

Lemma C8_witness :
  (∀ c e, @unmarshal _ (@chart_json Demo.env) "{" coa.ChartOfAccounts.zero
            = (c, Some e) →
     @saveChartsOfAccounts Demo.env 0 [] (Decode (Demo.request "alice" "{"))
       Demo.warm = (Returned (None, Some e), record EvDecode Demo.warm)) ∧
  (∀ a e, @unmarshal _ (@account_json Demo.env) "{" coa.Account.zero
            = (a, Some e) →
     @saveAccount Demo.env 0 [] (Decode (Demo.request "alice" "{"))
       Demo.warm = (Returned (None, Some e), record EvDecode Demo.warm)).
Proof.
  apply (@C8_decode_failure_stops_save Demo.env (Demo.request "alice" "{") []
           0 Demo.warm).
Defined.

Lemma C10_witness :
  (∃ c : httprouter.Params → coa.Call,
     ∀ cr ps d, @route_operation Demo.env GetChart cr ps d = call cr (c ps)) ∧
  (∀ cr ps d d',
     @route_operation Demo.env GetChart cr ps d =
     @route_operation Demo.env GetChart cr ps d') ∧
  (∀ w r ps σ, EvDecode ∉ since σ (@serve Demo.env GetChart w r ps σ).2) ∧
  (∀ w r r' ps σ,
     http.Header_ r = http.Header_ r' →
     @serve Demo.env GetChart w r ps σ = @serve Demo.env GetChart w r' ps σ).
Proof.
  apply (@C10_reads_ignore_the_body Demo.env GetChart). reflexivity.
Defined.

Lemma C9_witness :
  ∃ w',
    (@serve Demo.env PutChart http.NewResponseWriter Demo.put_c1
       [Demo.param "coa" "c1"] Demo.warm).1 = Returned w' ∧
    http.status w' = Some http.StatusOK ∧
    http.sent w' !! "Content-Type" = Some ["application/json"] ∧
    http.body w' = "{id:c1,user:alice@example.com}" +:+ newline.
Proof.
  destruct (@C9_response_follows_result Demo.env
              (@saveChartsOfAccounts Demo.env) http.NewResponseWriter
              Demo.put_c1 [Demo.param "coa" "c1"] Demo.warm
              "alice@example.com" Demo.put_c1_verified 0 Demo.put_c1_acquired
              Demo.put_c1_bound
              (Some (Demo.VChart
                       (coa.ChartOfAccounts.mk "c1" "alice@example.com" [])))
              None Demo.put_c1_done)
    as (w' & Heq & Hw'); try (vm_compute; reflexivity).
  exists w'. unfold serve. simpl route_operation. rewrite Heq.
  split; [reflexivity|exact Hw'].
Defined.

(** C9 as stated fails when the result cannot be encoded: the operation
    of [Demo.epoch_put] returns a non-nil result and no error, and the
    response is a failure response in plain text, not the result as
    JSON. *)
Lemma C9_unencodable_result_counterexample :
  (@saveChartsOfAccounts Demo.env 0 [] (Decode Demo.epoch_put)
     Demo.epoch_dispatch).1 = Returned (Some Demo.VOutOfRange, None) ∧
  @Marshal Demo.env Demo.VOutOfRange =
    inr "json: error calling MarshalJSON for type time.Time" ∧
  (@serve Demo.env PutChart http.NewResponseWriter Demo.epoch_put []
     Demo.start).1 =
    Returned (http.Error
                (http.Set_ "Content-Type" "application/json"
                   http.NewResponseWriter)
                "json: error calling MarshalJSON for type time.Time"
                http.StatusInternalServerError) ∧
  http.status (http.Error
                 (http.Set_ "Content-Type" "application/json"
                    http.NewResponseWriter)
                 "json: error calling MarshalJSON for type time.Time"
                 http.StatusInternalServerError) = Some 500 ∧
  http.sent (http.Error
               (http.Set_ "Content-Type" "application/json"
                  http.NewResponseWriter)
               "json: error calling MarshalJSON for type time.Time"
               http.StatusInternalServerError) !! "Content-Type"
    ≠ Some ["application/json"].
Proof.
  split_and!; try (vm_compute; reflexivity).
  vm_compute. intros Heq. discriminate Heq.
Qed.

(** ** Runs of the instance *)

(** The scenario of a PUT on a chart id: the body names the id "other" and
    the owner "eve"; the chart is stored under the path id for alice, on
    the pooled handle that was last bound to bob. *)
Example put_chart_run :
  (@serve Demo.env PutChart http.NewResponseWriter Demo.put_c1
     [Demo.param "coa" "c1"] Demo.warm).2 =
  @mkWorld Demo.env
    {[ 0 := @mkRepository Demo.env tt "alice@example.com" ]} [0] []
    [coa.ChartOfAccounts.mk "c1" "alice@example.com" []]
    [EvVerify "alice"; EvGet 0; EvDecode;
     EvRepo 0 "alice@example.com"
       (coa.SaveChartOfAccounts
          (coa.ChartOfAccounts.mk "c1" "alice@example.com" []));
     EvPut 0].
Proof. vm_compute. reflexivity. Qed.

(** A POST has no path id: the id of the body is kept. *)
Example post_chart_run :
  since Demo.start
    (@serve Demo.env CreateChart http.NewResponseWriter Demo.put_c1 []
       Demo.start).2 =
  [EvVerify "alice"; EvNew 0; EvGet 0; EvDecode;
   EvRepo 0 "alice@example.com"
     (coa.SaveChartOfAccounts
        (coa.ChartOfAccounts.mk "other" "alice@example.com" []));
   EvPut 0].
Proof. vm_compute. reflexivity. Qed.

(** The repository call panics: the request panics and the handle is
    back in the pool. *)
Example panicking_store_run :
  (@serve Demo.env CreateAccount http.NewResponseWriter Demo.put_c1
     [Demo.param "coa" "locked"] Demo.warm).1 =
    Panicked "store: connection lost" ∧
  idle (@serve Demo.env CreateAccount http.NewResponseWriter Demo.put_c1
          [Demo.param "coa" "locked"] Demo.warm).2 = [0].
Proof. split; vm_compute; reflexivity. Qed.

(** An operation that returns nil and no error: nothing is written, and
    the server answers 200 with an empty body. *)
Example nil_result_run :
  (@handler Demo.env Demo.nothing http.NewResponseWriter Demo.put_c1 []
     Demo.warm).1 = Returned http.NewResponseWriter ∧
  http.status (http.finish http.NewResponseWriter) = Some 200 ∧
  http.body (http.finish http.NewResponseWriter) = "".
Proof. split_and!; vm_compute; reflexivity. Qed.

(** A token with an unverified email acquires nothing. *)
Example unverified_run :
  (@serve Demo.env ListCharts http.NewResponseWriter
     (Demo.request "mallory" "") [] Demo.warm).2 =
  record (EvVerify "mallory") Demo.warm.
Proof. vm_compute. reflexivity. Qed.

(** * Further properties of the pipeline *)
Section Coverage.

Context `{Collaborators}.

Ltac run_M := unfold mbind, mret, M_bind, M_ret in *.

(** The world in which the operation of a request starts: the handle [h]
    of [σ1] rebound to [u]. *)
Lemma store_user_run h u σ1 rep :
  heap σ1 !! h = Some rep →
  ∃ σ2, store_user h u σ1 = (Returned tt, σ2) ∧
        heap σ2 = <[h := mkRepository (CoaRepository rep) u]> (heap σ1) ∧
        idle σ2 = idle σ1 ∧ backend σ2 = backend σ1 ∧ trace σ2 = trace σ1 ∧
        sched σ2 = sched σ1.
Proof.
  intros Hrep. rewrite (store_user_bound h u σ1 rep Hrep). by eexists.
Qed.

(** The four ways a request is served: it is refused; building a handle
    panics; the pool hands out a handle that is not allocated; or the
    operation runs on the bound handle, the response follows its result
    and the handle is put back. *)
Inductive service (rt : Route) (w : http.ResponseWriter) (r : http.Request)
    (ps : httprouter.Params) (σ : World)
  : Outcome http.ResponseWriter → World → Prop :=
| service_refused msg :
    authenticate r = ("", Some msg) →
    service rt w r ps σ
      (Returned (http.Error w msg http.StatusInternalServerError))
      (record (EvVerify (bearer r)) σ)
| service_no_handle u e σ1 :
    authenticate r = (u, None) →
    got (record (EvVerify (bearer r)) σ) (Panicked e) σ1 →
    service rt w r ps σ (Panicked e) σ1
| service_dangling u h e σ1 :
    authenticate r = (u, None) →
    got (record (EvVerify (bearer r)) σ) (Returned h) σ1 →
    heap σ1 !! h = None →
    service rt w r ps σ (Panicked e) σ1
| service_run u h σ1 rep σ2 o σ3 :
    authenticate r = (u, None) →
    got (record (EvVerify (bearer r)) σ) (Returned h) σ1 →
    heap σ1 !! h = Some rep →
    store_user h u σ1 = (Returned tt, σ2) →
    route_operation rt h ps (Decode r) σ2 = (o, σ3) →
    service rt w r ps σ
      (match o with
       | Returned res => Returned (respond w res)
       | Panicked e => Panicked e
       end)
      (repositoryPool_Put h σ3).2.

Lemma serve_service rt w r ps σ :
  service rt w r ps σ (serve rt w r ps σ).1 (serve rt w r ps σ).2.
Proof.
  destruct (authenticate_cases r) as [[u Ha]|[msg Ha]].
  2:{ unfold serve. rewrite (handler_rejected _ w r ps σ msg Ha).
      by constructor. }
  pose proof (Get_got (record (EvVerify (bearer r)) σ)) as Hgot.
  destruct (repositoryPool_Get _) as [[h|e] σ1] eqn:Hg; simpl in Hgot.
  2:{ unfold serve. rewrite (handler_panic_Get _ w r ps σ u e σ1 Ha Hg).
      by eapply service_no_handle. }
  destruct (heap σ1 !! h) as [rep|] eqn:Hrep.
  2:{ destruct (store_user_dangling h u σ1 Hrep) as [e Hs].
      unfold serve.
      rewrite (handler_panic_store _ w r ps σ u h e σ1 σ1 Ha Hg Hs).
      by eapply service_dangling. }
  destruct (store_user_run h u σ1 rep Hrep) as (σ2 & Hs & _).
  destruct (route_operation rt h ps (Decode r) σ2) as [o σ3] eqn:Hop.
  unfold serve.
  rewrite (handler_run _ w r ps σ u h σ1 σ2 o σ3 Ha Hg Hs Hop).
  by eapply service_run.
Qed.

Lemma authenticate_success r u :
  authenticate r = (u, None) →
  ∃ t c, Verify (bearer r) = inl t ∧ Claims t = (c, None) ∧
         Verified c = true ∧ u = Email c.
Proof.
  unfold authenticate. destruct (Verify (bearer r)) as [t|e]; [|done].
  destruct (Claims t) as [c [e|]] eqn:Hc; [done|].
  destruct (Verified c) eqn:Hv; [|done].
  intros [= <-]. by exists t, c.
Qed.

(** Every repository call of a request is made for the email of a token
    that the verifier accepted, whose claims decoded and whose email is
    verified: the identity the call runs under is that email. *)
Theorem calls_only_for_verified_email rt w r ps σ h x c :
  (h, x, c) ∈ repo_calls (since σ (serve rt w r ps σ).2) →
  ∃ t cl, Verify (bearer r) = inl t ∧ Claims t = (cl, None) ∧
          Verified cl = true ∧ x = Email cl.
Proof.
  intros Hin. destruct (authenticate_cases r) as [[u Ha]|[msg Ha]].
  - destruct (serve_trace rt w r ps σ u Ha) as (l & Hl & Hs).
    rewrite Hl in Hin. change (repo_calls (_ :: l)) with (repo_calls l) in Hin.
    destruct (served_calls _ _ _ _ _ _ _ _ _ Hs Hin) as (_ & -> & _).
    by apply authenticate_success.
  - rewrite (serve_rejected_trace rt w r ps σ msg Ha) in Hin.
    by apply elem_of_nil in Hin.
Qed.



Lemma operation_world rt r ps h rep σ2 o σ3 :
  heap σ2 !! h = Some rep →
  route_operation rt h ps (Decode r) σ2 = (o, σ3) →
  heap σ3 = heap σ2 ∧ idle σ3 = idle σ2 ∧ sched σ3 = sched σ2 ∧
  trace σ3 = trace σ2 ++ op_trace rt r ps h (user_ rep).
Proof.
  intros Hrep Hop.
  destruct (operation_run rt r ps h rep σ2 Hrep) as (o' & b & Heq).
  rewrite Heq in Hop. by injection Hop as _ <-.
Qed.

Lemma op_trace_counts rt r ps h u :
  verified (op_trace rt r ps h u) = [] ∧
  (length (repo_calls (op_trace rt r ps h u)) ≤ 1)%nat ∧
  (decodes (op_trace rt r ps h u) ≤ 1)%nat.
Proof.
  unfold op_trace, decodes.
  destruct rt; try destruct (unmarshal _ _) as [? [?|]]; simpl;
    split_and!; (done || lia).
Qed.

(** A request hands its credential to the verifier once, before anything
    else, and then calls the repository at most once and decodes the body
    at most once. *)
Theorem one_verification_one_call rt w r ps σ :
  head (since σ (serve rt w r ps σ).2) = Some (EvVerify (bearer r)) ∧
  verified (since σ (serve rt w r ps σ).2) = [bearer r] ∧
  (length (repo_calls (since σ (serve rt w r ps σ).2)) ≤ 1)%nat ∧
  (decodes (since σ (serve rt w r ps σ).2) ≤ 1)%nat.
Proof.
  destruct (authenticate_cases r) as [[u Ha]|[msg Ha]].
  2:{ rewrite (serve_rejected_trace rt w r ps σ msg Ha). unfold decodes.
      simpl. split_and!; (done || lia). }
  destruct (serve_trace rt w r ps σ u Ha) as (l & -> & Hs).
  destruct Hs as [|h ? ?|pre h Hpre]; unfold decodes; simpl;
    try (split_and!; (done || lia)).
  destruct (op_trace_counts rt r ps h u) as (Hv' & Hc & Hd).
  unfold verified, repo_calls, decodes in *.
  rewrite !omap_app. simpl. rewrite !omap_app. simpl.
  rewrite Hv', !length_app. simpl.
  destruct Hpre as [-> | ->]; simpl; split_and!; (done || lia).
Qed.


(** A request changes no handle but the one it acquires: every other
    allocated handle keeps its store and its identity. The acquired
    handle keeps its store and ends bound to the caller. *)
Theorem other_handles_untouched rt w r ps σ h' rep :
  heap σ !! h' = Some rep →
  heap (serve rt w r ps σ).2 !! h' = Some rep ∨
  (acquired (since σ (serve rt w r ps σ).2) = [h'] ∧
   heap (serve rt w r ps σ).2 !! h' =
     Some (mkRepository (CoaRepository rep) (authenticate r).1)).
Proof.
  intros Hh'. pose proof (serve_service rt w r ps σ) as Hs.
  destruct (serve rt w r ps σ) as [o σ']. simpl in *.
  inversion Hs as [msg Ha|u e σ1 Ha Hgot|u h e σ1 Ha Hgot Hnone
                  |u h σ1 rep1 σ2 o3 σ3 Ha Hgot Hrep Hst Hop]; subst.
  - by left.
  - inversion Hgot; subst. by left.
  - inversion Hgot; subst; simpl in *; [by left|].
    rewrite lookup_insert_eq in Hnone. done.
  - rewrite (store_user_bound h u σ1 rep1 Hrep) in Hst.
    injection Hst as <-.
    destruct (operation_world rt r ps h _ _ _ _ (lookup_insert_eq _ _ _) Hop)
      as (Hheap & _ & _ & Htr).
    simpl in *. rewrite Hheap. rewrite Ha. simpl.
    inversion Hgot as [k ? Hk HH Hσ|? v Hfresh HH Hσ|]; subst; simpl in *.
    + destruct (decide (h = h')) as [->|Hne].
      * right. rewrite lookup_insert_eq. rewrite Hh' in Hrep.
        injection Hrep as <-. split; [|done].
        erewrite since_app;
          [|simpl; rewrite Htr, <- !app_assoc; reflexivity].
        unfold acquired. rewrite !omap_app. simpl.
        fold (acquired (op_trace rt r ps h' u)).
        by rewrite op_trace_acquired.
      * left. by rewrite lookup_insert_ne.
    + left. assert (h ≠ h') as Hne by (intros ->; congruence).
      by rewrite !lookup_insert_ne.
Qed.


(** [Get] on a well-formed pool lends an allocated handle that is not
    idle any more: one that was idle, or a new one, which was not
    allocated before and whose identity is empty. The pool stays well
    formed. *)
Theorem Get_lends_a_free_handle σ h σ' :
  pool_wf σ →
  repositoryPool_Get σ = (Returned h, σ') →
  (h ∉ idle σ') ∧
  ((h ∈ idle σ ∧ heap σ' !! h = heap σ !! h) ∨
   (heap σ !! h = None ∧ user_ <$> heap σ' !! h = Some "")) ∧
  is_Some (heap σ' !! h) ∧
  pool_wf σ'.
Proof.
  intros [Hnd Hwf] Hg. pose proof Hwf as Hwf'. rewrite Forall_forall in Hwf.
  pose proof (Get_got σ) as Hgot. rewrite Hg in Hgot. simpl in Hgot.
  inversion Hgot as [k ? Hk HH Hσ|? v Hfresh HH Hσ|]; subst; simpl in *.
  - assert (h ∈ idle σ) as Hin by by apply list_elem_of_lookup_2 in Hk.
    assert (idle σ ≡ₚ h :: delete k (idle σ)) as Hperm
      by by apply delete_Permutation.
    assert (NoDup (h :: delete k (idle σ))) as Hnd' by by rewrite <- Hperm.
    apply NoDup_cons in Hnd' as [Hnotin Hnd'].
    split_and!; [done|by left|by apply Hwf|].
    split; simpl; [done|]. apply Forall_forall. intros x Hx.
    apply Hwf. rewrite Hperm. by right.
  - assert (h ∉ idle σ) as Hnotin.
    { intros Hin. destruct (Hwf h Hin) as [rep Hrep]. congruence. }
    split_and!; [done| |by rewrite lookup_insert_eq|].
    + right. by rewrite lookup_insert_eq.
    + split; simpl; [done|]. apply Forall_forall. intros x Hx.
      apply lookup_insert_is_Some'. right. by apply Hwf.
Qed.

(** When the pool offers no idle handle and the storage plugin fails to
    build a store, an authenticated request panics with the plugin's
    error: the operation is not run, nothing is acquired and the pool,
    the heap and the backend are as before. *)
Theorem plugin_failure_panics f w r ps σ u σ0 e :
  user r σ = (Returned (u, None), σ0) →
  idle σ !! hd 0 (sched σ) = None →
  NewKeyValueStore (fresh (dom (heap σ))) = inr e →
  (handler f w r ps σ).1 = Panicked e ∧
  since σ (handler f w r ps σ).2 = [EvVerify (bearer r)] ∧
  heap (handler f w r ps σ).2 = heap σ ∧
  idle (handler f w r ps σ).2 = idle σ ∧
  backend (handler f w r ps σ).2 = backend σ.
Proof.
  intros [Ha _]%user_inv Hidle Hnew.
  assert (repositoryPool_Get (record (EvVerify (bearer r)) σ) =
            (Panicked e,
             mkWorld (heap σ) (idle σ) (tl (sched σ)) (backend σ)
                     (trace σ ++ [EvVerify (bearer r)]))) as Hg.
  { unfold repositoryPool_Get, repositoryPool_New. run_M. simpl.
    by rewrite Hidle, Hnew. }
  rewrite (handler_panic_Get f w r ps σ u e _ Ha Hg). simpl.
  split_and!; try done. by apply since_app.
Qed.

Lemma operation_decode_error rt r ps cr σ e :
  decode_error rt r = Some e →
  route_operation rt cr ps (Decode r) σ =
    (Returned (None, Some e), record EvDecode σ).
Proof.
  intros He.
  destruct rt; simpl in He; try done; simpl;
    unfold saveChartsOfAccounts, saveAccount, Decode, emit; run_M; simpl;
    destruct (unmarshal _ _) as [x err]; simpl in He; by subst err.
Qed.

(** A save request that authenticates and gets a handle, but whose body
    does not decode, is answered with a failure response carrying the
    decoder's message; the repository is not called, the backend is
    unchanged and the handle is put back. *)
Theorem malformed_save_request rt w r ps σ u σ0 h σ1 e :
  http.status w = None → http.body w = "" →
  user r σ = (Returned (u, None), σ0) →
  repositoryPool_Get σ0 = (Returned h, σ1) →
  is_Some (heap σ1 !! h) →
  decode_error rt r = Some e →
  ∃ w',
    (serve rt w r ps σ).1 = Returned w' ∧ failure w' e ∧
    repo_calls (since σ (serve rt w r ps σ).2) = [] ∧
    backend (serve rt w r ps σ).2 = backend σ ∧
    released (since σ (serve rt w r ps σ).2) = [h].
Proof.
  intros Hs Hb [Ha ->]%user_inv Hg [rep Hrep] He.
  destruct (store_user_run h u σ1 rep Hrep) as (σ2 & Hst & _ & _ & Hbk & Htr & _).
  pose proof (operation_decode_error rt r ps h σ2 e He) as Hop.
  unfold serve.
  rewrite (handler_run _ w r ps σ u h σ1 σ2 _ _ Ha Hg Hst Hop). simpl.
  exists (http.Error w e http.StatusInternalServerError).
  pose proof (Get_got (record (EvVerify (bearer r)) σ)) as Hgot.
  rewrite Hg in Hgot. simpl in Hgot.
  split; [done|]. split; [by apply Error_failure|].
  inversion Hgot; subst; simpl in *.
  - erewrite since_app;
      [|simpl; rewrite Htr; simpl; rewrite <- !app_assoc; reflexivity].
    by rewrite Hbk.
  - erewrite since_app;
      [|simpl; rewrite Htr; simpl; rewrite <- !app_assoc; reflexivity].
    by rewrite Hbk.
Qed.

Lemma Decode_body r1 r2 : http.Body r1 = http.Body r2 → Decode r1 = Decode r2.
Proof. destruct r1, r2. simpl. by intros ->. Qed.

(** The scheme of the credential is optional and only the first value of
    the header counts: a request whose first Authorization value is
    "Bearer " followed by a token is served like a request with the same
    body whose first value is the token alone. *)
Theorem bearer_scheme_is_optional f w r1 r2 ps σ tok more1 more2 :
  http.Header_ r1 !! "Authorization" = Some (("Bearer " +:+ tok) :: more1) →
  http.Header_ r2 !! "Authorization" = Some (tok :: more2) →
  Strings.strip tok "Bearer " = None →
  http.Body r1 = http.Body r2 →
  bearer r1 = tok ∧ handler f w r1 ps σ = handler f w r2 ps σ.
Proof.
  intros H1 H2 Hs Hb.
  assert (bearer r1 = tok) as Hb1.
  { unfold bearer. rewrite H1. apply TrimPrefix_app. }
  assert (bearer r2 = tok) as Hb2.
  { unfold bearer, Strings.TrimPrefix. by rewrite H2, Hs. }
  split; [done|]. apply handler_ext; [congruence|].
  intros cr σ'. by rewrite (Decode_body r1 r2 Hb).
Qed.

(** A header that is missing, has no value, or whose first value is empty
    or the bare scheme, all submit the empty credential to the verifier;
    two such requests with the same body are served alike. *)
Theorem no_credential_verifies_empty f w r1 r2 ps σ :
  no_credential r1 = true → no_credential r2 = true →
  http.Body r1 = http.Body r2 →
  since σ (user r1 σ).2 = [EvVerify ""] ∧
  handler f w r1 ps σ = handler f w r2 ps σ.
Proof.
  assert (∀ r, no_credential r = true → bearer r = "") as Hempty.
  { intros r. unfold no_credential, bearer.
    destruct (http.Header_ r !! "Authorization") as [[|t ts]|]; try done.
    intros [-> | ->]%bool_decide_eq_true; reflexivity. }
  intros H1 H2 Hb. split.
  - rewrite user_authenticate, (Hempty r1 H1). apply since_record.
  - apply handler_ext; [by rewrite !Hempty|].
    intros cr σ'. by rewrite (Decode_body r1 r2 Hb).
Qed.

Lemma handler_ext_params (f : operation) w r ps ps' σ :
  (∀ cr d σ', f cr ps d σ' = f cr ps' d σ') →
  handler f w r ps σ = handler f w r ps' σ.
Proof.
  intros Hf. unfold handler. run_M. rewrite !user_authenticate.
  destruct (authenticate r) as [u [e|]]; simpl; [done|].
  destruct (repositoryPool_Get _) as [[h|e] σ1]; [|done].
  destruct (store_user h u σ1) as [[[]|e] σ2]; [|done].
  unfold defer. by rewrite Hf.
Qed.

(** A route reads its parameters only through the first values of "coa"
    and "account": further parameters, repeated keys and the order of the
    parameters do not change how a request is served. *)
Theorem operations_read_two_parameters rt w r ps ps' σ :
  httprouter.ByName ps "coa" = httprouter.ByName ps' "coa" →
  httprouter.ByName ps "account" = httprouter.ByName ps' "account" →
  serve rt w r ps σ = serve rt w r ps' σ.
Proof.
  intros Hc Ha. unfold serve. apply handler_ext_params. intros cr d σ'.
  destruct rt; simpl;
    unfold chartsOfAccounts, getChartOfAccounts, saveChartsOfAccounts,
      accounts, getAccount, saveAccount;
    by rewrite ?Hc, ?Ha.
Qed.



(** In a well-formed pool the handle a request acquired is idle again
    when the request is over, and it stays bound to the caller of that
    request until a later request rebinds it. *)
Theorem released_handle_stays_bound rt w r ps σ u σ0 h :
  pool_wf σ →
  user r σ = (Returned (u, None), σ0) →
  acquired (since σ (serve rt w r ps σ).2) = [h] →
  h ∈ idle (serve rt w r ps σ).2 ∧
  user_ <$> heap (serve rt w r ps σ).2 !! h = Some u.
Proof.
  intros [Hnd Hwf] [Ha _]%user_inv Hacq. rewrite Forall_forall in Hwf.
  pose proof (serve_service rt w r ps σ) as Hs.
  destruct (serve rt w r ps σ) as [o σ']. simpl in *.
  inversion Hs as [msg Ha'|u' e σ1 Ha' Hgot|u' h' e σ1 Ha' Hgot Hn
                  |u' h' σ1 rep1 σ2 o3 σ3 Ha' Hgot Hrep Hst Hop]; subst.
  - by rewrite since_record in Hacq.
  - inversion Hgot; subst. erewrite since_app in Hacq; [|done]. done.
  - inversion Hgot as [k ? Hk HH Hσ|? v Hfresh HH Hσ|]; subst; simpl in *.
    + destruct (Hwf h') as [rep Hrep]; [|congruence].
      by apply list_elem_of_lookup_2 in Hk.
    + by rewrite lookup_insert_eq in Hn.
  - assert (u' = u) as -> by congruence.
    rewrite (store_user_bound h' u σ1 rep1 Hrep) in Hst.
    injection Hst as <-.
    pose proof (operation_world rt r ps h' _ _ _ _ (lookup_insert_eq _ _ _) Hop)
      as (Hheap & Hidle & _ & Htr).
    simpl in *.
    assert (h' = h) as ->.
    { inversion Hgot; subst; simpl in *;
        (erewrite since_app in Hacq;
           [|simpl; rewrite Htr; rewrite <- !app_assoc; reflexivity]);
        unfold acquired in Hacq; simpl in Hacq; rewrite omap_app in Hacq;
        fold (acquired (op_trace rt r ps h' u)) in Hacq;
        rewrite op_trace_acquired in Hacq; simpl in Hacq; congruence. }
    split.
    + apply elem_of_app. right. by apply list_elem_of_singleton.
    + by rewrite Hheap, lookup_insert_eq.
Qed.



Lemma Get_idle σ h :
  idle σ !! hd 0 (sched σ) = Some h →
  repositoryPool_Get σ =
    (Returned h,
     mkWorld (heap σ) (delete (hd 0 (sched σ)) (idle σ)) (tl (sched σ))
             (backend σ) (trace σ ++ [EvGet h])).
Proof. intros Hk. unfold repositoryPool_Get. simpl. by rewrite Hk. Qed.

(** The handle built for the first request of an empty pool serves the
    next request: when the pool picks its first idle handle, the second
    request acquires that same handle without building another, all its
    repository calls run on it under the second caller, and the pool
    holds that one handle again afterwards. *)
Theorem pooled_handle_is_reused rt1 rt2 w1 w2 r1 r2 ps1 ps2 σ σ1 h u2 σ0 :
  idle σ = [] →
  (serve rt1 w1 r1 ps1 σ).2 = σ1 →
  acquired (since σ σ1) = [h] →
  hd 0 (sched σ1) = 0 →
  user r2 σ1 = (Returned (u2, None), σ0) →
  acquired (since σ1 (serve rt2 w2 r2 ps2 σ1).2) = [h] ∧
  (∀ h', EvNew h' ∉ since σ1 (serve rt2 w2 r2 ps2 σ1).2) ∧
  (∀ h' x c,
     (h', x, c) ∈ repo_calls (since σ1 (serve rt2 w2 r2 ps2 σ1).2) →
     h' = h ∧ x = u2) ∧
  idle (serve rt2 w2 r2 ps2 σ1).2 = [h].
Proof.
  intros Hempty Hσ1 Hacq Hsched [Ha2 _]%user_inv.
  (* the first request left [h] allocated and alone in the pool *)
  assert (idle σ1 = [h] ∧ is_Some (heap σ1 !! h)) as [Hidle [rep Hrep]].
  { clear Hsched Ha2. pose proof (serve_service rt1 w1 r1 ps1 σ) as Hs.
    destruct (serve rt1 w1 r1 ps1 σ) as [o1 σ1']. simpl in Hσ1, Hs.
    subst σ1'.
    inversion Hs as [msg Ha|u e σ' Ha Hgot|u h' e σ' Ha Hgot Hn
                    |u h' σ' rep1 σ2 o3 σ3 Ha Hgot Hrep1 Hst Hop]; subst.
    - by rewrite since_record in Hacq.
    - inversion Hgot; subst. erewrite since_app in Hacq; [|done]. done.
    - inversion Hgot as [k ? Hk HH Hσ|? v Hfresh HH Hσ|]; subst; simpl in *.
      + by rewrite Hempty in Hk.
      + by rewrite lookup_insert_eq in Hn.
    - rewrite (store_user_bound h' u σ' rep1 Hrep1) in Hst.
      injection Hst as <-.
      pose proof (operation_world rt1 r1 ps1 h' _ _ _ _
                    (lookup_insert_eq _ _ _) Hop) as (Hheap & Hid & _ & Htr).
      simpl in *.
      inversion Hgot as [k ? Hk HH Hσ|? v Hfresh HH Hσ|]; subst; simpl in *.
      { by rewrite Hempty in Hk. }
      erewrite since_app in Hacq;
        [|simpl; rewrite Htr; simpl; rewrite <- !app_assoc; reflexivity].
      unfold acquired in Hacq. simpl in Hacq. rewrite omap_app in Hacq.
      fold (acquired (op_trace rt1 r1 ps1 h' u)) in Hacq.
      rewrite op_trace_acquired in Hacq. simpl in Hacq.
      injection Hacq as ->.
      rewrite Hid, Hempty, Hheap, lookup_insert_eq. by eauto. }
  (* the second request takes it *)
  pose proof (Get_idle (record (EvVerify (bearer r2)) σ1) h) as Hg.
  simpl in Hg. rewrite Hsched, Hidle in Hg. specialize (Hg eq_refl).
  destruct (serve_run rt2 w2 r2 ps2 σ1 u2 h _ rep Ha2 Hg Hrep)
    as (o & b & ->).
  simpl.
  erewrite since_app; [|simpl; rewrite <- !app_assoc; reflexivity].
  split_and!.
  - unfold acquired. simpl. rewrite omap_app.
    fold (acquired (op_trace rt2 r2 ps2 h u2)).
    by rewrite op_trace_acquired.
  - intros h' [?|[?|Hin]%elem_of_cons]%elem_of_cons; [done|done|].
    apply elem_of_app in Hin as [Hin|Hin%list_elem_of_singleton]; [|done].
    by destruct (op_trace_events _ _ _ _ _ _ Hin) as [?|[? ?]].
  - intros h' x c Hin.
    apply list_elem_of_omap in Hin as (e & He & Hc).
    destruct e as [| | | | |h0 x0 c0]; try done.
    injection Hc as ? ? ?. subst h0 x0 c0.
    apply elem_of_cons in He as [?|[?|Hin]%elem_of_cons]; [done|done|].
    apply elem_of_app in Hin as [Hin|Hin%list_elem_of_singleton]; [|done].
    destruct (op_trace_events _ _ _ _ _ _ Hin) as [?|[? [= -> -> _]]]; done.
  - done.
Qed.

End Coverage.

(** * The further properties on the instance [Demo] *)

Lemma calls_only_for_verified_email_witness :
  ∃ t cl,
    @Verify Demo.env (bearer Demo.put_c1) = inl t ∧
    @Claims Demo.env t = (cl, None) ∧
    Verified cl = true ∧ "alice@example.com" = Email cl.
Proof.
  apply (@calls_only_for_verified_email Demo.env PutChart
           http.NewResponseWriter Demo.put_c1 [Demo.param "coa" "c1"]
           Demo.warm 0 "alice@example.com"
           (coa.SaveChartOfAccounts
              (coa.ChartOfAccounts.mk "c1" "alice@example.com" []))).
  vm_compute. constructor.
Defined.



Lemma other_handles_untouched_witness :
  heap (@serve Demo.env ListCharts http.NewResponseWriter
          (Demo.request "mallory" "") [] Demo.warm).2 !! 0 =
    Some (@mkRepository Demo.env tt "bob@example.com") ∨
  (acquired (since Demo.warm
     (@serve Demo.env ListCharts http.NewResponseWriter
        (Demo.request "mallory" "") [] Demo.warm).2) = [0] ∧
   heap (@serve Demo.env ListCharts http.NewResponseWriter
           (Demo.request "mallory" "") [] Demo.warm).2 !! 0 =
     Some (@mkRepository Demo.env tt
             (@authenticate Demo.env (Demo.request "mallory" "")).1)).
Proof.
  apply (@other_handles_untouched Demo.env ListCharts http.NewResponseWriter
           (Demo.request "mallory" "") [] Demo.warm 0
           (@mkRepository Demo.env tt "bob@example.com")).
  reflexivity.
Defined.


Lemma Get_lends_a_free_handle_witness :
  (0 ∉ idle (@repositoryPool_Get Demo.env Demo.warm).2) ∧
  ((0 ∈ idle Demo.warm ∧
    heap (@repositoryPool_Get Demo.env Demo.warm).2 !! 0 =
      heap Demo.warm !! 0) ∨
   (heap Demo.warm !! 0 = None ∧
    @user_ Demo.env <$> heap (@repositoryPool_Get Demo.env Demo.warm).2 !! 0
      = Some "")) ∧
  is_Some (heap (@repositoryPool_Get Demo.env Demo.warm).2 !! 0) ∧
  @pool_wf Demo.env (@repositoryPool_Get Demo.env Demo.warm).2.
Proof.
  apply (@Get_lends_a_free_handle Demo.env Demo.warm 0
           (@repositoryPool_Get Demo.env Demo.warm).2).
  - apply (bool_decide_unpack (@pool_wf Demo.env Demo.warm)).
    vm_compute. exact I.
  - vm_compute. reflexivity.
Defined.

Lemma plugin_failure_panics_witness :
  (@handler Demo.broken (@chartsOfAccounts Demo.broken) http.NewResponseWriter
     Demo.put_c1 [] Demo.cold).1 = Panicked "plugin: cannot reach the store" ∧
  since Demo.cold
    (@handler Demo.broken (@chartsOfAccounts Demo.broken)
       http.NewResponseWriter Demo.put_c1 [] Demo.cold).2 =
    [EvVerify (bearer Demo.put_c1)] ∧
  heap (@handler Demo.broken (@chartsOfAccounts Demo.broken)
          http.NewResponseWriter Demo.put_c1 [] Demo.cold).2 = heap Demo.cold ∧
  idle (@handler Demo.broken (@chartsOfAccounts Demo.broken)
          http.NewResponseWriter Demo.put_c1 [] Demo.cold).2 = idle Demo.cold ∧
  backend (@handler Demo.broken (@chartsOfAccounts Demo.broken)
             http.NewResponseWriter Demo.put_c1 [] Demo.cold).2 =
    backend Demo.cold.
Proof.
  apply (@plugin_failure_panics Demo.broken (@chartsOfAccounts Demo.broken)
           http.NewResponseWriter Demo.put_c1 [] Demo.cold
           "alice@example.com" (@user Demo.broken Demo.put_c1 Demo.cold).2);
    vm_compute; reflexivity.
Defined.

Lemma malformed_save_request_witness :
  ∃ w',
    (@serve Demo.env PutChart http.NewResponseWriter Demo.malformed
       [Demo.param "coa" "c1"] Demo.warm).1 = Returned w' ∧
    failure w' "invalid character" ∧
    repo_calls (since Demo.warm
      (@serve Demo.env PutChart http.NewResponseWriter Demo.malformed
         [Demo.param "coa" "c1"] Demo.warm).2) = [] ∧
    backend (@serve Demo.env PutChart http.NewResponseWriter Demo.malformed
               [Demo.param "coa" "c1"] Demo.warm).2 = backend Demo.warm ∧
    released (since Demo.warm
      (@serve Demo.env PutChart http.NewResponseWriter Demo.malformed
         [Demo.param "coa" "c1"] Demo.warm).2) = [0].
Proof.
  apply (@malformed_save_request Demo.env PutChart http.NewResponseWriter
           Demo.malformed [Demo.param "coa" "c1"] Demo.warm
           "alice@example.com" Demo.malformed_verified 0
           Demo.malformed_acquired "invalid character");
    try (vm_compute; reflexivity).
  apply (bool_decide_unpack _). vm_compute. exact I.
Defined.

Lemma bearer_scheme_is_optional_witness :
  bearer (Demo.request "alice" "other,eve") = "alice" ∧
  @handler Demo.env (@saveChartsOfAccounts Demo.env) http.NewResponseWriter
    (Demo.request "alice" "other,eve") [] Demo.warm =
  @handler Demo.env (@saveChartsOfAccounts Demo.env) http.NewResponseWriter
    (Demo.bare_token "alice" "other,eve") [] Demo.warm.
Proof.
  apply (@bearer_scheme_is_optional Demo.env (@saveChartsOfAccounts Demo.env)
           http.NewResponseWriter (Demo.request "alice" "other,eve")
           (Demo.bare_token "alice" "other,eve") [] Demo.warm "alice" []
           ["ignored"]); reflexivity.
Defined.

Lemma no_credential_verifies_empty_witness :
  since Demo.warm (@user Demo.env (Demo.anonymous "other,eve") Demo.warm).2 =
    [EvVerify ""] ∧
  @handler Demo.env (@saveChartsOfAccounts Demo.env) http.NewResponseWriter
    (Demo.anonymous "other,eve") [] Demo.warm =
  @handler Demo.env (@saveChartsOfAccounts Demo.env) http.NewResponseWriter
    (Demo.request "" "other,eve") [] Demo.warm.
Proof.
  apply (@no_credential_verifies_empty Demo.env
           (@saveChartsOfAccounts Demo.env) http.NewResponseWriter
           (Demo.anonymous "other,eve") (Demo.request "" "other,eve") []
           Demo.warm); reflexivity.
Defined.

Lemma operations_read_two_parameters_witness :
  @serve Demo.env PutChart http.NewResponseWriter Demo.put_c1
    [Demo.param "coa" "c1"; Demo.param "page" "2"; Demo.param "coa" "c2"]
    Demo.warm =
  @serve Demo.env PutChart http.NewResponseWriter Demo.put_c1
    [Demo.param "coa" "c1"] Demo.warm.
Proof.
  apply (@operations_read_two_parameters Demo.env PutChart
           http.NewResponseWriter Demo.put_c1
           [Demo.param "coa" "c1"; Demo.param "page" "2"; Demo.param "coa" "c2"]
           [Demo.param "coa" "c1"] Demo.warm); reflexivity.
Defined.


Lemma released_handle_stays_bound_witness :
  0 ∈ idle (@serve Demo.env PutChart http.NewResponseWriter Demo.put_c1
              [Demo.param "coa" "c1"] Demo.warm).2 ∧
  @user_ Demo.env <$>
    heap (@serve Demo.env PutChart http.NewResponseWriter Demo.put_c1
            [Demo.param "coa" "c1"] Demo.warm).2 !! 0 =
    Some "alice@example.com".
Proof.
  apply (@released_handle_stays_bound Demo.env PutChart http.NewResponseWriter
           Demo.put_c1 [Demo.param "coa" "c1"] Demo.warm "alice@example.com"
           Demo.put_c1_verified 0).
  - apply (bool_decide_unpack (@pool_wf Demo.env Demo.warm)).
    vm_compute. exact I.
  - vm_compute. reflexivity.
  - vm_compute. reflexivity.
Defined.


Lemma pooled_handle_is_reused_witness :
  acquired (since Demo.after_first
    (@serve Demo.env ListCharts http.NewResponseWriter (Demo.request "bob" "")
       [] Demo.after_first).2) = [0] ∧
  (∀ h', EvNew h' ∉ since Demo.after_first
    (@serve Demo.env ListCharts http.NewResponseWriter (Demo.request "bob" "")
       [] Demo.after_first).2) ∧
  (∀ h' x c,
     (h', x, c) ∈ repo_calls (since Demo.after_first
       (@serve Demo.env ListCharts http.NewResponseWriter
          (Demo.request "bob" "") [] Demo.after_first).2) →
     h' = 0 ∧ x = "bob@example.com") ∧
  idle (@serve Demo.env ListCharts http.NewResponseWriter
          (Demo.request "bob" "") [] Demo.after_first).2 = [0].
Proof.
  apply (@pooled_handle_is_reused Demo.env CreateChart ListCharts
           http.NewResponseWriter http.NewResponseWriter Demo.put_c1
           (Demo.request "bob" "") [] [] Demo.start Demo.after_first 0
           "bob@example.com"
           (@user Demo.env (Demo.request "bob" "") Demo.after_first).2);
    vm_compute; reflexivity.
Defined.
